(** * gemini-chat-client: session, history and turn processing

  A shallow embedding of [src/lib/gemini_tool.py] (class [Client]) and of
  [src/gemini.py] ([main]), with the properties of the specification
  stated and settled over it.

  Modelling choices, all taken from the Python source:
  - A Python [dict] is an insertion-ordered association list with unique
    keys; keys are strings or integers, as the client uses both in one
    dictionary ([title], [history_index] and the integer turn keys).
  - Python integers are [Z].
  - Exceptions are an error monad [result].
  - The files under [chat/history/] are a finite map from path to content;
    the content of a file is kept at the level of the JSON data model (the
    ordered members of the top-level object), which is what
    [json.dump] / [json.load] exchange.
  - Console output ([print]) is not modelled. *)

From Stdlib Require Import ZArith String Ascii List Lia.
From stdpp Require Import base tactics option list gmap strings pretty.

Open Scope string_scope.
Open Scope list_scope.
Open Scope Z_scope.

(** ** Python values and dictionaries *)

Module Py.

Inductive key : Type :=
| KStr (s : string)
| KInt (z : Z).

(** The values the client stores: the title, the turn counter and one
    [{"prompt": ..., "response": ...}] dictionary per turn. Values of other
    kinds (a float, a boolean, null, a list, another dictionary), which only
    a history file written by hand can bring in, are outside the model. *)
Inductive value : Type :=
| VStr (s : string)
| VInt (z : Z)
| VTurn (prompt response : string).

Definition item : Type := key * value.
Definition dict : Type := list item.

#[global] Instance key_eq_dec : EqDecision key.
Proof. solve_decision. Defined.
#[global] Instance value_eq_dec : EqDecision value.
Proof. solve_decision. Defined.

Definition keys (d : dict) : list key := d.*1.

(** [d.get(k)] *)
Fixpoint get (k : key) (d : dict) : option value :=
  match d with
  | [] => None
  | (k', v) :: d' => if decide (k' = k) then Some v else get k d'
  end.

(** [d[k] = v]: an existing key keeps its position, a new key goes last. *)
Fixpoint set (k : key) (v : value) (d : dict) : dict :=
  match d with
  | [] => [(k, v)]
  | (k', v') :: d' =>
      if decide (k' = k) then (k', v) :: d' else (k', v') :: set k v d'
  end.

(** [len(d)] *)
Definition len (d : dict) : Z := Z.of_nat (length d).

(** [l[start:]] for an arbitrary integer [start]: a negative index counts
    from the end, and the result is clamped to the list. *)
Definition slice_from {A : Type} (start : Z) (l : list A) : list A :=
  let n := Z.of_nat (length l) in
  let i := if start <? 0 then Z.max (start + n) 0 else Z.min start n in
  drop (Z.to_nat i) l.

(** [s.lower()] on the ASCII letters; other bytes are kept. *)
Definition lower_ascii (a : ascii) : ascii :=
  let n := N_of_ascii a in
  if ((65 <=? n) && (n <=? 90))%N then ascii_of_N (n + 32) else a.

Fixpoint lower (s : string) : string :=
  match s with
  | EmptyString => EmptyString
  | String a s' => String (lower_ascii a) (lower s')
  end.

(** Exceptions that the modelled code raises or lets through. *)
Inductive exn : Type :=
| SystemExit
| TypeError
| JSONDecodeError
| EOFError
| ApiError (msg : string).

Inductive result (A : Type) : Type :=
| Ok (a : A)
| Raise (e : exn).
Arguments Ok {A} a.
Arguments Raise {A} e.

#[global] Instance result_bind : MBind result := λ A B f m,
  match m with
  | Ok a => f a
  | Raise e => Raise e
  end.

End Py.

Import Py.

(** ** [json.dump] and [json.load] on dictionaries *)

Module Json.

(** The members of a JSON object, in textual order. Keys are strings
    only; a document may repeat a key. The values are those the client
    writes; they are the same on both sides of the file. *)
Definition object : Type := list (string * value).

(** [json.dump] writes an integer key as its decimal representation. *)
Definition key_string (k : key) : string :=
  match k with
  | KStr s => s
  | KInt z => pretty z
  end.

Definition dump (d : dict) : object :=
  map (λ kv : item, (key_string kv.1, kv.2)) d.

(** [json.load] builds the dictionary member by member: every key is a
    string, and a repeated key keeps its first position and its last
    value. *)
Definition load (o : object) : dict :=
  foldl (λ d (m : string * value), Py.set (KStr m.1) m.2 d) [] o.

End Json.

(** ** The chat client ([src/lib/gemini_tool.py]) *)

Module GeminiTool.

(** Content of a file under [chat/history/]: of size zero, a JSON object
    (given by its members), or text that [json.load] rejects with
    [JSONDecodeError]. Valid JSON that is not an object is outside the
    model. *)
Inductive file : Type :=
| Empty
| Json (o : Json.object)
| Malformed.

(** The part of the file system the client touches: the history files by
    path, and the side file [chat/response.csv] ([None]: not written yet). *)
Record World : Type := {
  files : gmap string file;
  response_csv : option string
}.

(** What [models.generate_content] hands back: [None], or a response
    object with its truth value and its [text]. *)
Inductive response : Type :=
| NoResponse
| Response (truthy : bool) (text : string).

(** The remote call: model name and contents to a response, or a failure. *)
Definition remote : Type := string → list string → result response.

(** The attributes of a [Client] instance. [chat_title], [history_file],
    [history], [context] and [history_index] are only assigned by
    [start_chat]. [history_index] is the counter read at the start of the
    session, not the entry of that name in [history]. *)
Record Client : Type := {
  model : string;
  questions : Z;
  context_window : Z;
  chat_title : string;
  history_file : string;
  history : dict;
  context : list item;
  history_index : Z
}.

(** [Client.__init__(model, questions=100, context_window=15)] *)
Definition init (model : string) (questions context_window : Z) : Client :=
  {| model := model; questions := questions; context_window := context_window;
     chat_title := ""; history_file := ""; history := []; context := [];
     history_index := 0 |}.

Definition default_questions : Z := 100.
Definition default_context_window : Z := 15.

Definition set_session (c : Client) (title path : string) : Client :=
  {| model := model c; questions := questions c;
     context_window := context_window c;
     chat_title := title; history_file := path;
     history := history c; context := context c;
     history_index := history_index c |}.

Definition set_history (c : Client) (h : dict) (ctx : list item) : Client :=
  {| model := model c; questions := questions c;
     context_window := context_window c;
     chat_title := chat_title c; history_file := history_file c;
     history := h; context := ctx;
     history_index := history_index c |}.

Definition set_history_index (c : Client) (n : Z) : Client :=
  {| model := model c; questions := questions c;
     context_window := context_window c;
     chat_title := chat_title c; history_file := history_file c;
     history := history c; context := context c;
     history_index := n |}.

Definition set_questions (c : Client) (q : Z) : Client :=
  {| model := model c; questions := q;
     context_window := context_window c;
     chat_title := chat_title c; history_file := history_file c;
     history := history c; context := context c;
     history_index := history_index c |}.

(** The truth value Python gives the result of the wrapped method. *)
Definition truth (r : response) : bool :=
  match r with
  | NoResponse => false
  | Response b _ => b
  end.

Definition no_response : string := "No response received.".

(** The decorator [process_response]: the wrapper it returns. *)
Definition process_response (method : Client → string → result response)
    (self : Client) (prompt : string) : result string :=
  r ← method self prompt;
  match r with
  | Response true t => Ok t
  | _ => Ok no_response
  end.

(** [respond], decorated with [process_response]. *)
Definition respond (generate_content : remote) : Client → string → result string :=
  process_response (λ self prompt, generate_content (model self) [prompt]).

Definition fresh_history (title : string) : dict :=
  Py.set (KStr "history_index") (VInt 0) (Py.set (KStr "title") (VStr title) []).

(** [load_history]. Creating the directory is not modelled. *)
Definition load_history (w : World) (self : Client) : result Client :=
  h ← match files w !! history_file self with
      | Some (Json o) => Ok (Json.load o)
      | Some Malformed => Raise JSONDecodeError
      | Some Empty | None => Ok (fresh_history (chat_title self))
      end;
  Ok (set_history self h h).

(** [save_history] *)
Definition save_history (w : World) (self : Client) : World :=
  {| files := <[history_file self := Json (Json.dump (history self))]> (files w);
     response_csv := response_csv w |}.

(** [update_history]. [history["history_index"] += 1] raises [TypeError]
    unless the entry is there and is an integer. *)
Definition update_history (w : World) (self : Client) (prompt response : string)
    : result (World * Client * string) :=
  let self := if questions self <? 1 then set_questions self 1 else self in
  match Py.get (KStr "history_index") (history self) with
  | Some (VInt n) =>
      let h1 := Py.set (KStr "history_index") (VInt (n + 1)) (history self) in
      let h2 := Py.set (KInt (n + 1)) (VTurn prompt response) h1 in
      let ctx := context self ++ [(KInt (n + 1), VTurn prompt response)] in
      let self := set_history self h2 ctx in
      let w := save_history w self in
      if Py.len (history self) - 2 =? questions self + history_index self
      then Ok (w, self, "exit")
      else Ok (w, self, "continue")
  | _ => Raise TypeError
  end.

Definition history_path (title : string) : string :=
  "chat/history/" +:+ title +:+ ".json".

(** The context handed to the model: [self.context[-self.context_window:]] *)
Definition context_slice (self : Client) : list item :=
  slice_from (- context_window self) (context self).

Definition instruction : string := "
Instruction: 
    1. Always check the 'chat history' for context only.
    2. Return response for current prompt only.
    3. your knowledge base is the basis for your response.  
    4. Do not repeat the chat history in your response.
    prompt: ".

(** States of the interactive loop between two turns. *)
Inductive session_state : Type :=
| AwaitingPrompt
| Terminated.

Section chat.

(** Python's rendering of a list of items inside the f-string. *)
Variable repr : list item → string.

Definition build_prompt (self : Client) (text : string) : string :=
  "chat history: " +:+ repr (context_slice self) +:+ instruction +:+ text.

(** The start of [start_chat], up to the loop: the title is read, the
    history loaded and the counter of the session start recorded.
    [history.get("history_index", 0)] is read as an integer; any other value
    makes the first [update_history] raise before the attribute is used. *)
Definition open_chat (w : World) (self : Client) (title : string) : result Client :=
  self ← load_history w (set_session self title (history_path title));
  Ok (set_history_index self
          match Py.get (KStr "history_index") (history self) with
          | Some (VInt n) => n
          | _ => 0
          end).

(** One pass through the body of the loop of [start_chat]. *)
Definition chat_turn (generate_content : remote) (w : World) (self : Client)
    (text : string) : result (World * Client * session_state) :=
  let prompt := build_prompt self text in
  response ← respond generate_content self prompt;
  '(w, self, status) ← update_history w self prompt response;
  let w := {| files := files w; response_csv := Some response |} in
  if String.eqb status "exit" || String.eqb (lower prompt) "exit"
  then Ok (w, self, Terminated)
  else Ok (w, self, AwaitingPrompt).

(** The loop, run on the prompts still to come (each with the behaviour of
    the remote model at that turn). [exit()] raises [SystemExit]; [input]
    raises [EOFError] when nothing is left to read. The loop has no normal
    exit. When a turn raises, the world returned is the one before that
    turn, as the turn has written no file yet. The client returned is the
    one before the turn as well: that is the real one when the remote call
    raises; when [update_history] raises, the real client has [questions]
    raised to 1 already, which the result does not show. *)
Fixpoint chat_loop (w : World) (self : Client) (script : list (string * remote))
    : World * Client * exn :=
  match script with
  | [] => (w, self, EOFError)
  | (text, generate_content) :: script =>
      match chat_turn generate_content w self text with
      | Raise e => (w, self, e)
      | Ok (w, self, Terminated) => (w, self, SystemExit)
      | Ok (w, self, AwaitingPrompt) => chat_loop w self script
      end
  end.

(** [start_chat]. When opening raises, the client returned is the one
    passed in, without the title and file just assigned. *)
Definition start_chat (w : World) (self : Client) (title : string)
    (script : list (string * remote)) : World * Client * exn :=
  match open_chat w self title with
  | Raise e => (w, self, e)
  | Ok self => chat_loop w self script
  end.

End chat.

End GeminiTool.

(** ** The entry point ([src/gemini.py]) *)

Module Gemini.

(** Calls received by the injected logger. *)
Inductive log_call : Type :=
| Info (message : string)
| Critical.

(** [main]: [body] is the outcome of the [try] block, that is of building
    the client when none is injected and of [gemini.start_chat()]. *)
Definition main (body : result string) : list log_call :=
  Info "Starting Gemini Client..." ::
  match body with
  | Ok _ => []
  | Raise SystemExit => [Info "Chat ended successfully."]
  | Raise _ => [Critical]
  end.

End Gemini.

(** ** Sessions: sequences of calls, and the shape of the state *)

Import GeminiTool.

(** Successive calls of [update_history], one per [(prompt, response)],
    with the values they return. *)
Fixpoint update_all (w : World) (self : Client) (turns : list (string * string))
    : result (World * Client * list string) :=
  match turns with
  | [] => Ok (w, self, [])
  | (prompt, response) :: turns =>
      '(w, self, status) ← update_history w self prompt response;
      '(w, self, statuses) ← update_all w self turns;
      Ok (w, self, status :: statuses)
  end.

(** The two bookkeeping entries every history starts with. *)
Definition bookkeeping (title : string) (n : Z) : dict :=
  [(KStr "title", VStr title); (KStr "history_index", VInt n)].

(** Number of stored turns, as the limit check counts them. *)
Definition turn_count (self : Client) : Z := Py.len (history self) - 2.

(** The state of a running session: the history is the bookkeeping entries
    (counter [n]) followed by the turns [ts]; the context is the same list
    with the counter [n0] of the session start; no integer key is ahead of
    the counter. *)
Record session (self : Client) (title : string) (n0 n : Z) (ts : dict) : Prop := {
  session_history : history self = bookkeeping title n ++ ts;
  session_context : context self = bookkeeping title n0 ++ ts;
  session_start : history_index self = n0;
  session_keys : ∀ z, KInt z ∈ keys ts → z ≤ n
}.

(** A key read as a turn number: the integer itself, or its decimal form
    once the history went through a file. *)
Definition denotes (k : key) (z : Z) : Prop :=
  k = KInt z ∨ k = KStr (pretty z).

(** Histories this program produces: a fresh one, one extended by
    [update_history], one written to its file and read back. *)
Inductive created : dict → Prop :=
| created_fresh title :
    created (fresh_history title)
| created_update w self prompt response w' self' status :
    created (history self) →
    update_history w self prompt response = Ok (w', self', status) →
    created (history self')
| created_reload h :
    created h →
    created (Json.load (Json.dump h)).

(** The world before anything was written. *)
Definition empty_world : World := {| files := ∅; response_csv := None |}.

(** A remote model that answers every prompt with [text]. *)
Definition answers (text : string) : remote := λ _ _, Ok (Response true text).

(** ** Vocabulary of the properties *)

(** The values returned by [k] successive calls when [count] turns are
    stored and the check compares against [limit]. *)
Fixpoint limit_statuses (count limit : Z) (k : nat) : list string :=
  match k with
  | O => []
  | S k =>
      (if count + 1 =? limit then "exit" else "continue")
        :: limit_statuses (count + 1) limit k
  end.

Definition new_turns (n : Z) (turns : list (string * string)) : dict :=
  imap (λ i (t : string * string), (KInt (n + 1 + Z.of_nat i), VTurn t.1 t.2)) turns.

(** No record under a path: no file, or a file of size zero. *)
Definition no_record (w : World) (path : string) : Prop :=
  files w !! path = None ∨ files w !! path = Some Empty.

(** The client as [start_chat] has it when the loop is entered ([self]
    itself if opening fails). *)
Definition opened (w : World) (self : Client) (title : string) : Client :=
  match open_chat w self title with
  | Ok self' => self'
  | Raise _ => self
  end.

(** The value a call returned, if it returned. *)
Definition returned {A B : Type} (r : result (A * B)) : option B :=
  match r with
  | Ok (_, b) => Some b
  | Raise _ => None
  end.

Definition digit_char (c : ascii) : Prop :=
  ∃ d, (d < 10)%N ∧ c = pretty_N_char d.

(** A dictionary with every integer key replaced by its decimal string. *)
Definition stringified (d : dict) : dict :=
  map (λ kv : item, (KStr (Json.key_string kv.1), kv.2)) d.

(** An entry after the round trip: the value is the same; a string key is
    the same, an integer key has become its decimal string. *)
Definition reloaded_entry (kv kv' : item) : Prop :=
  kv'.2 = kv.2
  ∧ ((∃ s : string, kv.1 = KStr s ∧ kv'.1 = KStr s)
     ∨ (∃ z : Z, kv.1 = KInt z ∧ kv'.1 = KStr (pretty z))).

(** World and client after the calls of [update_all] (unchanged if a call
    raises). *)
Definition after_updates (w : World) (self : Client) (turns : list (string * string))
    : World * Client :=
  match update_all w self turns with
  | Ok (w', self', _) => (w', self')
  | Raise _ => (w, self)
  end.

Definition demo_client : Client :=
  opened empty_world (init "gemini-2.0-flash" 100 15) "demo".

Definition demo_after_one_turn : Client :=
  (after_updates empty_world demo_client [("hi", "hello")]).2.

(** A session with a limit of 1 on which [update_history] was called twice:
    two turns are stored, one more than the limit allows. *)
Definition demo_overshot : World * Client :=
  after_updates empty_world
    (opened empty_world (init "gemini-2.0-flash" 1 15) "demo")
    [("a", "b"); ("c", "d")].

(** The shape of a history: the counter equals the number of turns, and
    the turn keys read 1, 2, ... in insertion order. *)
Definition counted (h : dict) (title : string) (ts : dict) : Prop :=
  h = bookkeeping title (Py.len ts) ++ ts
  ∧ Forall2 denotes (keys ts) (seqZ 1 (Py.len ts)).

(** A rendering of the context that elides it. *)
Definition elided_repr : list item → string := λ _, "[...]".

(** What a turn leaves behind when [response] is recorded for [prompt]. *)
Definition recorded (w' : World) (self' : Client) (n : Z) (prompt response : string)
    : Prop :=
  Py.get (KInt (n + 1)) (history self') = Some (VTurn prompt response)
  ∧ last (context self') = Some (KInt (n + 1), VTurn prompt response)
  ∧ response_csv w' = Some response.

(** The three attributes set by the constructor. *)
Definition config_kept (self self' : Client) : Prop :=
  model self' = model self
  ∧ context_window self' = context_window self
  ∧ questions self' = questions self.

(** The same, with [questions] raised to 1 by [update_history]. *)
Definition config_coerced (self self' : Client) : Prop :=
  model self' = model self
  ∧ context_window self' = context_window self
  ∧ questions self' = Z.max (questions self) 1.

Definition ended_successfully : Gemini.log_call := Gemini.Info "Chat ended successfully.".

(** A run of the program: [main] around [start_chat] on the default
    client. The loop only ends by an exception. *)
Definition main_run (repr : list item → string) (w : World) (title : string)
    (script : list (string * remote)) : list Gemini.log_call :=
  Gemini.main
    (Raise (start_chat repr w (init "gemini-2.0-flash" default_questions
                                 default_context_window) title script).2).

(** ** The logger ([src/lib/log.py]) *)

Module Log.

(** [s.replace(',', '.')] *)
Fixpoint replace_comma (s : string) : string :=
  match s with
  | EmptyString => EmptyString
  | String c s' => String (if Ascii.eqb c "," then "."%char else c) (replace_comma s')
  end.

(** [s.split(',')] *)
Fixpoint split_comma (s : string) : list string :=
  match s with
  | EmptyString => [EmptyString]
  | String c s' =>
      if Ascii.eqb c "," then EmptyString :: split_comma s'
      else match split_comma s' with
           | field :: fields => String c field :: fields
           | [] => [String c EmptyString]
           end
  end.

Definition newline : string := "
".

(** The root logger of the [logging] module: without a handler, writing to
    a file, or writing to the standard error stream. *)
Inductive root : Type :=
| Unconfigured
| File (path : string)
| Stderr.

(** The process-wide state the logger works on: the root logger and the
    text of the files under [log/]. *)
Record Logging : Type := {
  handler : root;
  disk : gmap string string
}.

(** [logging.basicConfig(filename=..., filemode='a', level=logging.INFO,
    format='%(asctime)s,%(levelname)s,%(message)s', ...)]: a root logger
    that has a handler is left alone; otherwise the file is opened for
    appending, which creates it when it is missing. *)
Definition basicConfig (filename : string) (g : Logging) : Logging :=
  match handler g with
  | Unconfigured =>
      {| handler := File filename;
         disk := match disk g !! filename with
                 | Some _ => disk g
                 | None => <[filename := ""]> (disk g)
                 end |}
  | _ => g
  end.

(** A record sent to the root logger at level INFO or above, at the time
    rendered as [asctime]: one line appended to the file of the handler.
    Without a handler, [logging] installs the one for standard error. *)
Definition emit (levelname asctime message : string) (g : Logging) : Logging :=
  match handler g with
  | File path =>
      {| handler := handler g;
         disk := <[path := default "" (disk g !! path) +:+ asctime +:+ ","
                              +:+ levelname +:+ "," +:+ message +:+ newline]>
                   (disk g) |}
  | Stderr => g
  | Unconfigured => {| handler := Stderr; disk := disk g |}
  end.

(** The attributes of a [Log] instance. *)
Record t : Type := {
  log_file : string;
  fields : list string
}.

Definition default_file_name : string := "log.csv".
Definition default_header_row : string := "DATE,LEVEL,MESSAGE,ERROR,FILE,LINE".

(** [Log.__init__(file_name, header_row)] *)
Definition init (file_name header_row : string) (g : Logging) : t * Logging :=
  let log_file := "log/" +:+ file_name in
  let g := basicConfig log_file g in
  let fields := split_comma header_row in
  let g := match disk g !! log_file with
           | Some (String _ _) => g
           | _ => {| handler := handler g;
                     disk := <[log_file := header_row +:+ newline]> (disk g) |}
           end in
  ({| log_file := log_file; fields := fields |}, g).

(** [Log.info(message)] *)
Definition info (message : option string) (asctime : string) (g : Logging) : Logging :=
  match message with
  | Some (String c m) => emit "INFO" asctime (replace_comma (String c m)) g
  | _ => emit "INFO" asctime "No message provided." g
  end.

(** A frame of a traceback, and what [sys.exc_info()] gives while an
    exception is handled: the name of its type, its text and the frames. *)
Record frame : Type := {
  filename : string;
  lineno : Z
}.

Record exc_info : Type := {
  exc_type : string;
  exc_text : string;
  traceback : list frame
}.

Record error_details : Type := {
  error_name : string;
  message : string;
  file : string;
  line : Z
}.

(** What the methods raise themselves. *)
Inductive failure : Type :=
| AttributeError
| IndexError.

Section details.

(** [__file__] of the module, and [Path(...).name]. *)
Variable module_file : string.
Variable path_name : string → string.

(** [Log._get_error_details()]. [active] is [None] when no exception is
    being handled. *)
Definition get_error_details (active : option exc_info) : failure + error_details :=
  match active with
  | None => inl AttributeError
  | Some e =>
      match last (traceback e) with
      | None => inl IndexError
      | Some innermost =>
          let frame :=
            default innermost
              (head (filter (λ f, filename f = module_file) (reverse (traceback e)))) in
          inr {| error_name := exc_type e;
                 message := replace_comma (exc_text e);
                 file := path_name (filename frame);
                 line := lineno frame |}
      end
  end.

(** The common body of [Log.error(message)] and [Log.critical(message)]. *)
Definition report (levelname : string) (custom : option string) (asctime : string)
    (active : option exc_info) (g : Logging) : failure + Logging :=
  match get_error_details active with
  | inl f => inl f
  | inr d =>
      let text := match custom with
                  | Some (String c m) => replace_comma (String c m)
                  | _ => message d
                  end in
      inr (emit levelname asctime
             (error_name d +:+ "," +:+ text +:+ "," +:+ file d +:+ ","
                +:+ pretty (line d)) g)
  end.

(** [Log.error(message=None)] *)
Definition error : option string → string → option exc_info → Logging
    → failure + Logging :=
  report "ERROR".

(** [Log.critical(message=None)] *)
Definition critical : option string → string → option exc_info → Logging
    → failure + Logging :=
  report "CRITICAL".

End details.

End Log.

(** ** Vocabulary of the further properties *)

(** Whether a string holds a comma. *)
Fixpoint has_comma (s : string) : bool :=
  match s with
  | EmptyString => false
  | String c s' => Ascii.eqb c "," || has_comma s'
  end.

(** The text a logging method puts in the message field: the custom
    message when it is given and not empty, [fallback] otherwise. *)
Definition message_text (custom : option string) (fallback : string) : string :=
  match custom with
  | Some (String c m) => Log.replace_comma (String c m)
  | _ => fallback
  end.

(** What [error] and [critical] do while the exception [e], with a
    traceback that is not empty, is handled and the root logger writes to
    [path]: one line is appended, and it splits at the commas into the
    time, the level, the name of the exception, the message, the file and
    the line. *)
Definition reports (levelname : string)
    (method : option string → string → option Log.exc_info → Log.Logging
              → Log.failure + Log.Logging)
    (get : option Log.exc_info → Log.failure + Log.error_details) : Prop :=
  ∀ custom asctime e g path,
    Log.handler g = Log.File path →
    Log.traceback e ≠ [] →
    has_comma asctime = false →
    has_comma (Log.exc_type e) = false →
    ∃ g' d record,
      method custom asctime (Some e) g = inr g'
      ∧ get (Some e) = inr d
      ∧ Log.handler g' = Log.File path
      ∧ Log.disk g' =
          <[path := default "" (Log.disk g !! path) +:+ record +:+ Log.newline]>
            (Log.disk g)
      ∧ (has_comma (Log.file d) = false →
         Log.split_comma record =
           [asctime; levelname; Log.exc_type e;
            message_text custom (Log.replace_comma (Log.exc_text e));
            Log.file d; pretty (Log.line d)]).

(** The logging state of a process that has not logged yet. *)
Definition no_logging : Log.Logging :=
  {| Log.handler := Log.Unconfigured; Log.disk := ∅ |}.

(** A division by zero caught in a test, and the log module's own file. *)
Definition demo_exc : Log.exc_info :=
  {| Log.exc_type := "ZeroDivisionError";
     Log.exc_text := "division by zero";
     Log.traceback := [{| Log.filename := "src/tests/log_test.py"; Log.lineno := 42 |}] |}.

Definition demo_module_file : string := "src/lib/log.py".

(** A script whose remote calls all return a response. *)
Definition answering (script : list (string * remote)) : Prop :=
  Forall (λ turn : string * remote, ∀ m contents, ∃ r, turn.2 m contents = Ok r) script.

(** A remote call that fails with [e] whatever it is asked. *)
Definition failing (e : exn) : remote := λ _ _, Raise e.

(** The limit the check of [update_history] compares the stored turns
    with, in a session started at counter [n0]. *)
Definition session_limit (self : Client) (n0 : Z) : Z :=
  Z.max (questions self) 1 + n0.

(** The last component of a path written with [/]: an instance of
    [Path(...).name] for paths without a trailing separator. *)
Fixpoint last_component (s : string) : string :=
  match s with
  | EmptyString => EmptyString
  | String c s' =>
      if Ascii.eqb c "/" then last_component s'
      else if bool_decide (last_component s' = s') then String c s'
      else last_component s'
  end.

(** * Properties *)

(** ** Dictionaries *)

Section dict_facts.
Implicit Types (d : dict) (k : key) (v : value).

Lemma get_set_eq d k v : Py.get k (Py.set k v d) = Some v.
Proof.
  induction d as [|[k' v'] d IH]; simpl.
  - by rewrite decide_True.
  - destruct (decide (k' = k)) as [->|Hne]; simpl.
    + by rewrite decide_True.
    + by rewrite decide_False.
Qed.

Lemma get_set_ne d k k' v : k ≠ k' → Py.get k' (Py.set k v d) = Py.get k' d.
Proof.
  intros Hne. induction d as [|[k1 v1] d IH]; simpl.
  - by rewrite decide_False.
  - destruct (decide (k1 = k)) as [->|Hk1]; simpl.
    + by rewrite !decide_False.
    + by rewrite IH.
Qed.

Lemma set_fresh d k v : k ∉ keys d → Py.set k v d = d ++ [(k, v)].
Proof.
  unfold keys. induction d as [|[k' v'] d IH]; simpl; [done|].
  intros Hnotin. apply not_elem_of_cons in Hnotin as [Hne Hd].
  rewrite decide_False by done. by rewrite IH.
Qed.

Lemma length_set_le d k v : (length d ≤ length (Py.set k v d))%nat.
Proof.
  induction d as [|[k' v'] d IH]; simpl; [lia|].
  destruct (decide (k' = k)); simpl; lia.
Qed.

End dict_facts.

(** ** One call of [update_history] *)

(** The call spelled out, with [questions] raised to 1 first. *)
Lemma update_history_index w self prompt response n :
  Py.get (KStr "history_index") (history self) = Some (VInt n) →
  let h := Py.set (KInt (n + 1)) (VTurn prompt response)
             (Py.set (KStr "history_index") (VInt (n + 1)) (history self)) in
  let self' := set_history (set_questions self (Z.max (questions self) 1)) h
                 (context self ++ [(KInt (n + 1), VTurn prompt response)]) in
  update_history w self prompt response =
    Ok (save_history w self', self',
        if Py.len h - 2 =? Z.max (questions self) 1 + history_index self
        then "exit" else "continue").
Proof.
  intros Hget h self'. unfold update_history.
  assert ((if questions self <? 1 then set_questions self 1 else self)
          = set_questions self (Z.max (questions self) 1)) as ->.
  { destruct (Z.ltb_spec (questions self) 1).
    - by rewrite Z.max_r by lia.
    - rewrite Z.max_l by lia. by destruct self. }
  simpl. rewrite Hget. fold h. fold self'.
  by destruct (Py.len h - 2 =? _).
Qed.

Lemma update_history_session w self prompt response title n0 n ts :
  session self title n0 n ts →
  let turn := (KInt (n + 1), VTurn prompt response) in
  let self' := set_history (set_questions self (Z.max (questions self) 1))
                 (bookkeeping title (n + 1) ++ ts ++ [turn])
                 (context self ++ [turn]) in
  update_history w self prompt response =
    Ok (save_history w self', self',
        if Z.of_nat (length ts) + 1 =? Z.max (questions self) 1 + n0
        then "exit" else "continue")
  ∧ session self' title n0 (n + 1) (ts ++ [turn]).
Proof.
  intros [Hh Hc Hs Hk] turn self'.
  assert (Py.set (KInt (n + 1)) (VTurn prompt response)
            (Py.set (KStr "history_index") (VInt (n + 1)) (history self))
          = bookkeeping title (n + 1) ++ ts ++ [turn]) as Hnew.
  { rewrite Hh. simpl. f_equal. f_equal. apply set_fresh.
    intros Hin. apply Hk in Hin. lia. }
  split.
  - rewrite (update_history_index _ _ _ _ n) by (by rewrite Hh).
    rewrite Hnew. fold self'. rewrite Hs. f_equal. f_equal.
    unfold Py.len. simpl. rewrite length_app. simpl.
    replace (Z.of_nat (S (S (length ts + 1))) - 2) with (Z.of_nat (length ts) + 1) by lia.
    done.
  - split; simpl.
    + done.
    + rewrite Hc. by rewrite <-app_assoc.
    + done.
    + intros z. unfold keys. rewrite fmap_app, elem_of_app. simpl.
      intros [Hin|Hin].
      * apply Hk in Hin. lia.
      * apply list_elem_of_singleton in Hin. simplify_eq. lia.
Qed.

(** ** Sequences of calls *)

Lemma update_all_session turns : ∀ w self title n0 n ts,
  session self title n0 n ts →
  ∃ w' self',
    update_all w self turns =
      Ok (w', self',
          limit_statuses (Z.of_nat (length ts)) (Z.max (questions self) 1 + n0)
            (length turns))
    ∧ session self' title n0 (n + Z.of_nat (length turns)) (ts ++ new_turns n turns)
    ∧ (turns ≠ [] → questions self' = Z.max (questions self) 1).
Proof.
  induction turns as [|[p r] turns IH]; intros w self title n0 n ts Hs.
  - exists w, self. simpl. rewrite Z.add_0_r, app_nil_r. done.
  - destruct (update_history_session w self p r _ _ _ _ Hs) as [Hupd Hs'].
    set (self1 := set_history _ _ _) in *.
    destruct (IH (save_history w self1) self1 _ _ _ _ Hs') as (w' & self' & Hall & Hs'' & Hq).
    exists w', self'. split; [|split].
    + cbn [update_all]. rewrite Hupd. cbn. rewrite Hall. cbn.
      replace (Z.max (Z.max (questions self) 1) 1)
        with (Z.max (questions self) 1) by lia.
      rewrite length_app. simpl.
      replace (Z.of_nat (length ts + 1)) with (Z.of_nat (length ts) + 1) by lia.
      reflexivity.
    + replace (n + Z.of_nat (length ((p, r) :: turns)))
        with (n + 1 + Z.of_nat (length turns)) by (simpl; lia).
      replace (ts ++ new_turns n ((p, r) :: turns))
        with ((ts ++ [(KInt (n + 1), VTurn p r)]) ++ new_turns (n + 1) turns); [done|].
      rewrite <-app_assoc. f_equal. unfold new_turns. simpl.
      change (Z.of_nat 0) with 0. rewrite Z.add_0_r. f_equal.
      apply imap_ext. intros i [p' r'] _. simpl.
      replace (n + 1 + 1 + Z.of_nat i) with (n + 1 + Z.of_nat (S i)) by lia.
      done.
    + intros _. destruct turns as [|t turns'].
      * simpl in Hall. injection Hall as <- <-. simpl. lia.
      * rewrite Hq by done. simpl. lia.
Qed.

Lemma limit_statuses_reach k count limit :
  count + Z.of_nat (S k) = limit →
  limit_statuses count limit (S k) = replicate k "continue" ++ ["exit"].
Proof.
  revert count. induction k as [|k IH]; intros count Heq.
  - simpl. destruct (Z.eqb_spec (count + 1) limit); [done|lia].
  - change (limit_statuses count limit (S (S k)))
      with ((if count + 1 =? limit then "exit" else "continue")
              :: limit_statuses (count + 1) limit (S k)).
    destruct (Z.eqb_spec (count + 1) limit); [lia|].
    rewrite IH by lia. done.
Qed.

(** ** Opening a session *)

Lemma open_chat_fresh w self title :
  no_record w (history_path title) →
  open_chat w self title =
    Ok (set_history_index
          (set_history (set_session self title (history_path title))
             (bookkeeping title 0) (bookkeeping title 0)) 0).
Proof.
  intros Hno. unfold open_chat, load_history. simpl.
  by destruct Hno as [-> | ->].
Qed.

Lemma opened_fresh_session w self title :
  no_record w (history_path title) →
  session (opened w self title) title 0 0 [].
Proof.
  intros Hno. unfold opened. rewrite open_chat_fresh by done.
  split; try done. intros z Hin. by apply not_elem_of_nil in Hin.
Qed.

Lemma no_record_empty_world path : no_record empty_world path.
Proof. left. apply lookup_empty. Qed.

(** C5. Loading a title that has no record, or only an empty one, gives a
    fresh history: the counter is 0, there is no turn, and the title is the
    requested one. *)
Theorem load_fresh_history w self title :
  no_record w (history_path title) →
  ∃ self',
    open_chat w self title = Ok self'
    ∧ load_history w (set_session self title (history_path title))
        = Ok (set_history (set_session self title (history_path title))
                (history self') (history self'))
    ∧ history self' = [(KStr "title", VStr title); (KStr "history_index", VInt 0)]
    ∧ context self' = history self'
    ∧ chat_title self' = title
    ∧ history_index self' = 0
    ∧ turn_count self' = 0.
Proof.
  intros Hno. eexists. split; [by apply open_chat_fresh|].
  split; [|done].
  unfold load_history. simpl. by destruct Hno as [-> | ->].
Qed.

Lemma load_fresh_history_witness :
  ∃ self',
    open_chat empty_world (init "gemini-2.0-flash" 100 15) "demo" = Ok self'
    ∧ load_history empty_world
        (set_session (init "gemini-2.0-flash" 100 15) "demo" (history_path "demo"))
        = Ok (set_history
                (set_session (init "gemini-2.0-flash" 100 15) "demo" (history_path "demo"))
                (history self') (history self'))
    ∧ history self' = [(KStr "title", VStr "demo"); (KStr "history_index", VInt 0)]
    ∧ context self' = history self'
    ∧ chat_title self' = "demo"
    ∧ history_index self' = 0
    ∧ turn_count self' = 0.
Proof.
  apply (load_fresh_history empty_world (init "gemini-2.0-flash" 100 15) "demo").
  left. reflexivity.
Defined.

(** ** The turn limit *)

(** C3. In a session that starts at counter 0 with an empty history and a
    limit [L], the first [max L 1 - 1] calls of [update_history] return
    [continue] and the next one returns [exit]; [questions] is [max L 1]
    from the first call on, so a limit of 0 or less permits exactly one
    turn. *)
Theorem turn_limit_boundary w self title turns :
  session self title 0 0 [] →
  Z.of_nat (length turns) = Z.max (questions self) 1 →
  ∃ w' self',
    update_all w self turns =
      Ok (w', self', replicate (length turns - 1) "continue" ++ ["exit"])
    ∧ questions self' = Z.max (questions self) 1.
Proof.
  intros Hs Hlen.
  destruct (update_all_session turns w self _ _ _ _ Hs) as (w' & self' & Hall & _ & Hq).
  exists w', self'. split.
  - rewrite Hall. do 2 f_equal. simpl.
    destruct turns as [|t turns]; [simpl in Hlen; lia|].
    rewrite (limit_statuses_reach (length turns)) by (simpl in *; lia).
    simpl. by rewrite Nat.sub_0_r.
  - apply Hq. intros ->. simpl in Hlen. lia.
Qed.

Lemma turn_limit_boundary_witness :
  ∃ w' self',
    update_all empty_world (opened empty_world (init "gemini-2.0-flash" 2 1) "demo")
      [("hi", "hello"); ("bye", "ok")]
    = Ok (w', self', ["continue"; "exit"])
    ∧ questions self' = 2.
Proof.
  apply (turn_limit_boundary empty_world
           (opened empty_world (init "gemini-2.0-flash" 2 1) "demo") "demo"
           [("hi", "hello"); ("bye", "ok")]).
  - apply opened_fresh_session, no_record_empty_world.
  - reflexivity.
Defined.

Example limit_zero_permits_one_turn :
  returned (update_history empty_world
              (opened empty_world (init "gemini-2.0-flash" 0 15) "demo") "p" "r")
  = Some "exit".
Proof. vm_compute. reflexivity. Qed.

(** C10, as amended. Once the stored turns exceed [max questions 1] plus
    the counter of the session start, every call of [update_history]
    returns [continue], whatever follows. *)
Theorem limit_never_signalled_once_overshot turns : ∀ w self n,
  Py.get (KStr "history_index") (history self) = Some (VInt n) →
  turn_count self > Z.max (questions self) 1 + history_index self →
  ∃ w' self',
    update_all w self turns = Ok (w', self', replicate (length turns) "continue").
Proof.
  induction turns as [|[p r] turns IH]; intros w self n Hget Hover.
  - by exists w, self.
  - pose proof (update_history_index w self p r n Hget) as Hupd.
    cbv zeta in Hupd.
    set (h := Py.set (KInt (n + 1)) _ _) in Hupd.
    set (self1 := set_history _ h _) in Hupd.
    assert (Py.len (history self) ≤ Py.len h) as Hlen.
    { unfold Py.len, h.
      pose proof (length_set_le (history self) (KStr "history_index") (VInt (n + 1))).
      pose proof (length_set_le
        (Py.set (KStr "history_index") (VInt (n + 1)) (history self))
        (KInt (n + 1)) (VTurn p r)).
      lia. }
    unfold turn_count in Hover.
    destruct (Z.eqb_spec (Py.len h - 2) (Z.max (questions self) 1 + history_index self))
      as [Heq|_]; [lia|].
    destruct (IH (save_history w self1) self1 (n + 1)) as (w' & self' & Hall).
    + simpl. unfold h. rewrite get_set_ne by done. apply get_set_eq.
    + unfold turn_count. simpl. lia.
    + exists w', self'. cbn [update_all]. rewrite Hupd. cbn. by rewrite Hall.
Qed.

Lemma limit_never_signalled_once_overshot_witness :
  ∃ w' self',
    update_all demo_overshot.1 demo_overshot.2 [("p", "r"); ("q", "s")]
    = Ok (w', self', ["continue"; "continue"]).
Proof.
  apply (limit_never_signalled_once_overshot [("p", "r"); ("q", "s")]
           demo_overshot.1 demo_overshot.2 2).
  - vm_compute. reflexivity.
  - vm_compute. reflexivity.
Defined.

(** C10 as stated fails: with [questions = -1] a fresh session already
    holds more turns (0) than [questions] plus the counter of the session
    start (-1 + 0), and the call returns [exit]. *)
Lemma overshoot_of_raw_questions_exits :
  let self := opened empty_world (init "gemini-2.0-flash" (-1) 15) "demo" in
  turn_count self > questions self + history_index self
  ∧ returned (update_history empty_world self "p" "r") = Some "exit".
Proof. split; vm_compute; reflexivity. Qed.

(** ** Decimal keys *)

Lemma pretty_N_go_head x : ∀ s c s',
  pretty_N_go x s = String c s' → digit_char c ∨ ∃ s'', s = String c s''.
Proof.
  induction (N.lt_wf_0 x) as [x _ IH]; intros s c s' Heq.
  assert (x = 0 ∨ 0 < x)%N as [->|Hpos] by lia.
  - rewrite pretty_N_go_0 in Heq. right. by exists s'.
  - rewrite pretty_N_go_step in Heq by done.
    apply IH in Heq; [|by apply N.div_lt].
    destruct Heq as [Hd|[s'' Hs]]; [by left|]. left.
    injection Hs as <- _. exists (x `mod` 10)%N.
    split; [apply N.mod_lt; lia|done].
Qed.

Lemma pretty_Z_head (z : Z) c s :
  pretty z = String c s → c = "-"%char ∨ digit_char c.
Proof.
  destruct z as [|p|p]; unfold pretty, pretty_Z.
  - intros [= <- _]. right. by exists 0%N.
  - unfold pretty, pretty_positive, pretty, pretty_N.
    rewrite decide_False by done. intros Heq.
    apply pretty_N_go_head in Heq as [Hd|[s'' Hs]]; [by right|done].
  - intros [= <- _]. by left.
Qed.

Lemma digit_char_is_digit c :
  digit_char c → (48 <=? N_of_ascii c)%N && (N_of_ascii c <=? 57)%N = true.
Proof.
  intros (d & _ & ->). unfold pretty_N_char. by repeat case_match.
Qed.

Lemma pretty_Z_ne_title (z : Z) : pretty z ≠ "title".
Proof.
  intros Heq. apply pretty_Z_head in Heq as [Heq|Hd]; [done|].
  by apply digit_char_is_digit in Hd.
Qed.

Lemma pretty_Z_ne_history_index (z : Z) : pretty z ≠ "history_index".
Proof.
  intros Heq. apply pretty_Z_head in Heq as [Heq|Hd]; [done|].
  by apply digit_char_is_digit in Hd.
Qed.

(** ** [json.load] after [json.dump] *)

Lemma load_members o : ∀ acc,
  NoDup (keys acc ++ (KStr <$> o.*1)) →
  foldl (λ d (m : string * value), Py.set (KStr m.1) m.2 d) acc o
  = acc ++ map (λ m : string * value, (KStr m.1, m.2)) o.
Proof.
  induction o as [|[s v] o IH]; intros acc Hnd; simpl.
  - by rewrite app_nil_r.
  - simpl in Hnd. rewrite set_fresh.
    + rewrite IH.
      * by rewrite <-app_assoc.
      * unfold keys in *. rewrite fmap_app. simpl. by rewrite <-app_assoc.
    + apply NoDup_app in Hnd as (_ & Hdisj & _). intros Hin.
      apply (Hdisj _ Hin). left.
Qed.

#[local] Instance KStr_inj : Inj (=) (=) KStr.
Proof. by intros s1 s2 [= ->]. Qed.

Lemma dump_keys d : (Json.dump d).*1 = Json.key_string <$> keys d.
Proof. induction d as [|[k v] d IH]; [done|]. cbn. by f_equal. Qed.

Lemma load_dump d :
  NoDup (Json.key_string <$> keys d) →
  Json.load (Json.dump d) = stringified d.
Proof.
  intros Hnd. unfold Json.load. rewrite load_members.
  - unfold Json.dump, stringified. simpl. by rewrite map_map.
  - simpl. rewrite dump_keys. by apply (NoDup_fmap_2 KStr).
Qed.

Lemma stringified_strings d :
  (∀ k, k ∈ keys d → ∃ s, k = KStr s) → stringified d = d.
Proof.
  unfold keys. induction d as [|[k v] d IH]; intros Hstr; simpl; [done|].
  destruct (Hstr k) as [s ->]; [left|]. simpl. f_equal.
  apply IH. intros k' Hin. apply Hstr. by right.
Qed.

Lemma get_stringified d s :
  (∀ z : Z, pretty z ≠ s) →
  Py.get (KStr s) (stringified d) = Py.get (KStr s) d.
Proof.
  intros Hs. induction d as [|[k v] d IH]; simpl; [done|].
  destruct k as [s'|z]; simpl.
  - destruct (decide (KStr s' = KStr s)); [done|apply IH].
  - rewrite decide_False by (intros [= Heq]; by apply (Hs z)).
    apply IH.
Qed.

(** ** Saving and loading *)

Lemma load_after_save w self :
  load_history (save_history w self) self =
    Ok (set_history self (Json.load (Json.dump (history self)))
          (Json.load (Json.dump (history self)))).
Proof.
  unfold load_history, save_history. simpl. by rewrite lookup_insert_eq.
Qed.

Lemma stringified_reloaded_entry d : Forall2 reloaded_entry d (stringified d).
Proof.
  induction d as [|[k v] d IH]; simpl; constructor; [|done].
  split; [done|]. destruct k as [s|z]; simpl; [left; by exists s|right; by exists z].
Qed.

Lemma stringified_fixed d :
  stringified d = d → ∀ k, k ∈ keys d → ∃ s, k = KStr s.
Proof.
  unfold keys. induction d as [|[k v] d IH]; intros Heq k' Hin.
  - by apply not_elem_of_nil in Hin.
  - injection Heq as Hk Hd. rewrite fmap_cons in Hin.
    apply elem_of_cons in Hin as [->|Hin]; [by eexists|by apply IH].
Qed.

(** C4, as amended. Saving a history and loading it again gives the same
    entries in the same order with the same values, the [title] and
    [history_index] entries included; every string key is kept and every
    integer turn key comes back as its decimal string. The history comes
    back identical exactly when all its keys were strings. This holds when
    no two keys are written as the same string. *)
Theorem save_load_round_trip w self :
  NoDup (Json.key_string <$> keys (history self)) →
  ∃ h',
    load_history (save_history w self) self = Ok (set_history self h' h')
    ∧ Forall2 reloaded_entry (history self) h'
    ∧ Py.get (KStr "title") h' = Py.get (KStr "title") (history self)
    ∧ Py.get (KStr "history_index") h' = Py.get (KStr "history_index") (history self)
    ∧ (h' = history self ↔ ∀ k, k ∈ keys (history self) → ∃ s, k = KStr s).
Proof.
  intros Hnd. exists (stringified (history self)).
  split; [|split; [|split; [|split]]].
  - rewrite load_after_save. by rewrite load_dump.
  - apply stringified_reloaded_entry.
  - apply get_stringified, pretty_Z_ne_title.
  - apply get_stringified, pretty_Z_ne_history_index.
  - split; [apply stringified_fixed|apply stringified_strings].
Qed.

Lemma save_load_round_trip_witness :
  ∃ h',
    load_history (save_history empty_world demo_after_one_turn) demo_after_one_turn
      = Ok (set_history demo_after_one_turn h' h')
    ∧ Forall2 reloaded_entry (history demo_after_one_turn) h'
    ∧ Py.get (KStr "title") h' = Py.get (KStr "title") (history demo_after_one_turn)
    ∧ Py.get (KStr "history_index") h'
        = Py.get (KStr "history_index") (history demo_after_one_turn)
    ∧ (h' = history demo_after_one_turn
       ↔ ∀ k, k ∈ keys (history demo_after_one_turn) → ∃ s, k = KStr s).
Proof.
  apply (save_load_round_trip empty_world demo_after_one_turn).
  vm_compute. repeat constructor; intros Hin; inversion Hin; subst;
    repeat match goal with H : _ ∈ _ |- _ => inversion H; clear H; subst end.
Defined.

(** C4 as stated fails: after one turn the history holds the turn under
    the integer key 1; after saving and loading it holds it under the string
    key "1", and nothing under the integer key. *)
Lemma reload_renames_turn_keys :
  ∃ self',
    load_history (save_history empty_world demo_after_one_turn) demo_after_one_turn
      = Ok self'
    ∧ history self' ≠ history demo_after_one_turn
    ∧ Py.get (KInt 1) (history demo_after_one_turn) = Some (VTurn "hi" "hello")
    ∧ Py.get (KInt 1) (history self') = None
    ∧ Py.get (KStr "1") (history self') = Some (VTurn "hi" "hello").
Proof.
  eexists. split; [apply load_after_save|].
  split; [|split; [|split]]; vm_compute; congruence.
Qed.

(** ** The counter and the turn keys *)

Lemma denotes_int ks zs z :
  Forall2 denotes ks zs → KInt z ∈ ks → z ∈ zs.
Proof.
  induction 1 as [|k z' ks zs Hd _ IH]; intros Hin.
  - by apply not_elem_of_nil in Hin.
  - apply elem_of_cons in Hin as [Heq|Hin]; [|right; by apply IH].
    subst k. destruct Hd as [[= ->]|?]; [left|done].
Qed.

Lemma denotes_key_string ks zs :
  Forall2 denotes ks zs → Json.key_string <$> ks = pretty <$> zs.
Proof.
  induction 1 as [|k z ks zs Hd _ IH]; [done|].
  cbn. f_equal; [|done]. by destruct Hd as [-> | ->].
Qed.

Lemma denotes_stringified ts zs :
  Forall2 denotes (keys ts) zs → Forall2 denotes (keys (stringified ts)) zs.
Proof.
  unfold keys. revert zs. induction ts as [|[k v] ts IH]; intros zs Hd.
  - by inversion Hd.
  - inversion Hd as [|? z ? zs' Hk Hrest]; subst. cbn. constructor.
    + right. by destruct Hk as [-> | ->].
    + by apply IH.
Qed.

Lemma counted_update w self prompt response title ts :
  counted (history self) title ts →
  let turn := (KInt (Py.len ts + 1), VTurn prompt response) in
  ∃ w' self' status,
    update_history w self prompt response = Ok (w', self', status)
    ∧ history self' = bookkeeping title (Py.len ts + 1) ++ ts ++ [turn]
    ∧ counted (history self') title (ts ++ [turn]).
Proof.
  intros [Hh Hd] turn.
  assert (Py.get (KStr "history_index") (history self) = Some (VInt (Py.len ts)))
    as Hget by (by rewrite Hh).
  rewrite (update_history_index _ _ _ _ _ Hget). cbv zeta.
  do 3 eexists. split; [done|]. simpl.
  assert (Py.set (KInt (Py.len ts + 1)) (VTurn prompt response)
            (Py.set (KStr "history_index") (VInt (Py.len ts + 1)) (history self))
          = bookkeeping title (Py.len ts + 1) ++ ts ++ [turn]) as ->.
  { rewrite Hh. simpl. do 2 f_equal. apply set_fresh. intros Hin.
    apply (denotes_int _ _ _ Hd), elem_of_seqZ in Hin. lia. }
  split; [done|]. split.
  - unfold Py.len. rewrite length_app. simpl.
    by replace (Z.of_nat (length ts + 1)) with (Z.of_nat (length ts) + 1) by lia.
  - unfold keys, Py.len in *. rewrite fmap_app, length_app. simpl.
    replace (Z.of_nat (length ts + 1)) with (Z.of_nat (S (length ts))) by lia.
    rewrite seqZ_S. apply Forall2_app; [done|].
    constructor; [|done]. left. unfold turn, Py.len. simpl.
    by replace (1 + Z.of_nat (length ts)) with (Z.of_nat (length ts) + 1) by lia.
Qed.

Lemma counted_reload h title ts :
  counted h title ts →
  Json.load (Json.dump h) = stringified h
  ∧ counted (stringified h) title (stringified ts).
Proof.
  intros [-> Hd]. split.
  - apply load_dump.
    assert (Json.key_string <$> keys (bookkeeping title (Py.len ts) ++ ts)
            = "title" :: "history_index" :: (pretty <$> seqZ 1 (Py.len ts))) as ->.
    { by rewrite <-(denotes_key_string _ _ Hd). }
    apply NoDup_cons. split.
    { rewrite elem_of_cons. intros [?|Hin]; [done|].
      apply list_elem_of_fmap in Hin as (z & Heq & _).
      by apply (pretty_Z_ne_title z). }
    apply NoDup_cons. split.
    { intros Hin. apply list_elem_of_fmap in Hin as (z & Heq & _).
      by apply (pretty_Z_ne_history_index z). }
    apply (NoDup_fmap_2 _), NoDup_seqZ.
  - split.
    + unfold stringified. rewrite map_app. simpl.
      unfold Py.len. by rewrite length_map.
    + unfold Py.len, stringified. rewrite length_map.
      by apply denotes_stringified.
Qed.

Lemma created_counted h : created h → ∃ title ts, counted h title ts.
Proof.
  induction 1 as [title|w self p r w' self' status _ (title & ts & Hc) Hupd
                 |h _ (title & ts & Hc)].
  - exists title, []. split; [done|]. constructor.
  - destruct (counted_update w self p r _ _ Hc) as (w1 & self1 & s1 & Hupd1 & _ & Hc1).
    rewrite Hupd in Hupd1. injection Hupd1 as _ <- _.
    by eexists _, _.
  - destruct (counted_reload _ _ _ Hc) as [-> Hc'].
    by eexists _, _.
Qed.


(** C7. Every call of [update_history] on a history with an integer
    counter returns, raises the counter by exactly one and stores the new
    turn under the key counter + 1. For every history this program creates,
    the counter equals the number of turn entries and the turn keys read
    1, 2, ..., counter in insertion order, and the call appends the new turn
    last. *)
Theorem counter_matches_turn_keys :
  (∀ w self prompt response n,
     Py.get (KStr "history_index") (history self) = Some (VInt n) →
     ∃ w' self' status,
       update_history w self prompt response = Ok (w', self', status)
       ∧ Py.get (KStr "history_index") (history self') = Some (VInt (n + 1))
       ∧ Py.get (KInt (n + 1)) (history self') = Some (VTurn prompt response))
  ∧ (∀ h,
       created h →
       ∃ title ts,
         h = bookkeeping title (Py.len ts) ++ ts
         ∧ Forall2 denotes (keys ts) (seqZ 1 (Py.len ts))
         ∧ ∀ w self prompt response,
             history self = h →
             ∃ w' self' status,
               update_history w self prompt response = Ok (w', self', status)
               ∧ history self' =
                   bookkeeping title (Py.len ts + 1) ++ ts
                     ++ [(KInt (Py.len ts + 1), VTurn prompt response)]).
Proof.
  split.
  - intros w self p r n Hget.
    rewrite (update_history_index _ _ _ _ _ Hget). cbv zeta.
    do 3 eexists. split; [done|]. simpl. split.
    + rewrite get_set_ne by done. apply get_set_eq.
    + apply get_set_eq.
  - intros h Hc. destruct (created_counted h Hc) as (title & ts & Hh & Hd).
    exists title, ts. split; [done|]. split; [done|].
    intros w self p r Heq.
    destruct (counted_update w self p r title ts) as (w' & self' & s & Hupd & Hh' & _).
    { by rewrite Heq. }
    by exists w', self', s.
Qed.

Lemma counter_matches_turn_keys_witness :
  ∃ title ts,
    Json.load (Json.dump (history demo_after_one_turn))
      = bookkeeping title (Py.len ts) ++ ts
    ∧ Forall2 denotes (keys ts) (seqZ 1 (Py.len ts))
    ∧ ∀ w self prompt response,
        history self = Json.load (Json.dump (history demo_after_one_turn)) →
        ∃ w' self' status,
          update_history w self prompt response = Ok (w', self', status)
          ∧ history self' =
              bookkeeping title (Py.len ts + 1) ++ ts
                ++ [(KInt (Py.len ts + 1), VTurn prompt response)].
Proof.
  apply (proj2 counter_matches_turn_keys
           (Json.load (Json.dump (history demo_after_one_turn)))).
  apply created_reload.
  apply (created_update empty_world demo_client "hi" "hello"
           (after_updates empty_world demo_client [("hi", "hello")]).1
           demo_after_one_turn "continue").
  - apply created_fresh.
  - vm_compute. reflexivity.
Defined.

Example reloaded_history_takes_next_turn :
  history (after_updates empty_world
             (set_history demo_client
                (Json.load (Json.dump (history demo_after_one_turn))) [])
             [("bye", "ok")]).2
  = [(KStr "title", VStr "demo"); (KStr "history_index", VInt 2);
     (KStr "1", VTurn "hi" "hello"); (KInt 2, VTurn "bye" "ok")].
Proof. vm_compute. reflexivity. Qed.

(** ** The context window *)

Lemma context_slice_session self title n0 n ts :
  session self title n0 n ts →
  1 ≤ context_window self →
  context_slice self =
    drop (Z.to_nat (Py.len ts + 2 - context_window self)) (bookkeeping title n0 ++ ts).
Proof.
  intros [_ Hc _ _] HN. unfold context_slice, slice_from. rewrite Hc.
  destruct (Z.ltb_spec (- context_window self) 0) as [_|?]; [|lia].
  f_equal. unfold Py.len. rewrite length_app. simpl. lia.
Qed.

(** What the loop sends for a window [N] of at least 1 in a running
    session with [M] stored turns: the last [min (M + 2) N] items of the
    context. For [N ≤ M] these are exactly the [N] most recent turns; for
    [M < N] the bookkeeping entries come along with the turns. *)
Theorem context_slice_window self title n0 n ts :
  session self title n0 n ts →
  1 ≤ context_window self →
  Z.of_nat (length (context_slice self))
    = Z.min (Py.len ts + 2) (context_window self)
  ∧ (context_window self ≤ Py.len ts →
     context_slice self = drop (Z.to_nat (Py.len ts - context_window self)) ts)
  ∧ (Py.len ts < context_window self →
     context_slice self
     = drop (Z.to_nat (Py.len ts + 2 - context_window self)) (bookkeeping title n0)
         ++ ts).
Proof.
  intros Hs HN. rewrite (context_slice_session _ _ _ _ _ Hs HN).
  unfold Py.len. split; [|split].
  - rewrite length_drop, length_app. simpl. lia.
  - intros Hle.
    replace (Z.to_nat (Z.of_nat (length ts) + 2 - context_window self))
      with (S (S (Z.to_nat (Z.of_nat (length ts) - context_window self)))) by lia.
    done.
  - intros Hlt. rewrite drop_app_le; [done|]. simpl. lia.
Qed.

Lemma context_slice_window_witness :
  Z.of_nat (length (context_slice demo_after_one_turn))
    = Z.min (Py.len [(KInt 1, VTurn "hi" "hello")] + 2)
        (context_window demo_after_one_turn)
  ∧ (context_window demo_after_one_turn ≤ Py.len [(KInt 1, VTurn "hi" "hello")] →
     context_slice demo_after_one_turn
     = drop (Z.to_nat (Py.len [(KInt 1, VTurn "hi" "hello")]
                       - context_window demo_after_one_turn))
         [(KInt 1, VTurn "hi" "hello")])
  ∧ (Py.len [(KInt 1, VTurn "hi" "hello")] < context_window demo_after_one_turn →
     context_slice demo_after_one_turn
     = drop (Z.to_nat (Py.len [(KInt 1, VTurn "hi" "hello")] + 2
                       - context_window demo_after_one_turn))
         (bookkeeping "demo" 0)
         ++ [(KInt 1, VTurn "hi" "hello")]).
Proof.
  apply (context_slice_window demo_after_one_turn "demo" 0 1
           [(KInt 1, VTurn "hi" "hello")]).
  - split; [reflexivity|reflexivity|reflexivity|].
    intros z Hin. apply list_elem_of_singleton in Hin.
    injection Hin as ->. lia.
  - vm_compute. discriminate.
Defined.

(** C2, on the code. A fresh session holds no turn, yet with the default
    window of 15 the slice sent as chat history has the two bookkeeping
    entries: its length is 2, not [min 0 15]. *)
Lemma fresh_context_slice_not_empty :
  turn_count demo_client = 0
  ∧ context_window demo_client = 15
  ∧ context_slice demo_client
    = [(KStr "title", VStr "demo"); (KStr "history_index", VInt 0)]
  ∧ Z.of_nat (length (context_slice demo_client))
    ≠ Z.min (turn_count demo_client) (context_window demo_client).
Proof. repeat split; vm_compute; congruence. Qed.

Example context_slice_after_one_turn :
  turn_count demo_after_one_turn = 1
  ∧ Py.get (KStr "history_index") (history demo_after_one_turn) = Some (VInt 1)
  ∧ context_slice demo_after_one_turn
    = [(KStr "title", VStr "demo"); (KStr "history_index", VInt 0);
       (KInt 1, VTurn "hi" "hello")].
Proof. repeat split; vm_compute; reflexivity. Qed.

Example window_zero_takes_everything :
  context_slice (set_history (init "gemini-2.0-flash" 100 0) []
                   (bookkeeping "demo" 0 ++ [(KInt 1, VTurn "hi" "hello")]))
  = bookkeeping "demo" 0 ++ [(KInt 1, VTurn "hi" "hello")].
Proof. reflexivity. Qed.

(** ** One turn of the loop *)

(** The response the wrapper of [process_response] hands on. *)
Lemma respond_returns gc self prompt r :
  gc (model self) [prompt] = Ok r →
  respond gc self prompt =
    Ok match r with Response true t => t | _ => no_response end.
Proof.
  intros Hr. unfold respond, process_response. rewrite Hr. simpl.
  by destruct r as [|[] t].
Qed.

(** The prompt sent to the model never lowers to [exit]: it starts with
    [chat history: ]. *)
Lemma lower_prompt_ne_exit repr self text :
  String.eqb (lower (build_prompt repr self text)) "exit" = false.
Proof. reflexivity. Qed.

(** A turn ends the session exactly when [update_history] says [exit]. *)
Lemma chat_turn_status repr gc w self text response w1 self1 status :
  respond gc self (build_prompt repr self text) = Ok response →
  update_history w self (build_prompt repr self text) response
    = Ok (w1, self1, status) →
  chat_turn repr gc w self text =
    Ok ({| files := files w1; response_csv := Some response |}, self1,
        if String.eqb status "exit" then Terminated else AwaitingPrompt).
Proof.
  intros Hr Hu. unfold chat_turn. cbv zeta.
  rewrite Hr. cbn [mbind result_bind].
  rewrite Hu. cbn [mbind result_bind].
  rewrite lower_prompt_ne_exit, orb_false_r.
  by destruct (String.eqb status "exit").
Qed.

(** C1, on the code. In a fresh session with the default limit of 100, the
    first turn leaves the session awaiting the next prompt whatever the text
    typed, [exit] included: the loop lowers the whole prompt it built, not
    the text. *)
Theorem typed_exit_keeps_session_open repr text :
  ∃ w' self',
    chat_turn repr (answers "bye") empty_world demo_client text
      = Ok (w', self', AwaitingPrompt).
Proof.
  destruct (update_history_session empty_world demo_client
              (build_prompt repr demo_client text) "bye" "demo" 0 0 [])
    as [Hupd _].
  { apply opened_fresh_session, no_record_empty_world. }
  assert (respond (answers "bye") demo_client (build_prompt repr demo_client text)
          = Ok "bye") as Hr by reflexivity.
  do 2 eexists.
  rewrite (chat_turn_status _ _ _ _ _ _ _ _ _ Hr Hupd).
  reflexivity.
Qed.

Example typed_exit_first_turn :
  returned (chat_turn elided_repr (answers "bye") empty_world demo_client "exit")
  = Some AwaitingPrompt.
Proof. vm_compute. reflexivity. Qed.

(** C6, as amended. When the remote call returns [None] or a response
    object that is false, the turn records the fixed string
    [No response received.]; when it returns a response object that is true,
    the turn records its text, also when that text is empty. *)
Theorem empty_response_sentinel repr gc w self text r n :
  gc (model self) [build_prompt repr self text] = Ok r →
  Py.get (KStr "history_index") (history self) = Some (VInt n) →
  ∃ response w' self' state,
    respond gc self (build_prompt repr self text) = Ok response
    ∧ chat_turn repr gc w self text = Ok (w', self', state)
    ∧ recorded w' self' n (build_prompt repr self text) response
    ∧ (truth r = false → response = "No response received.")
    ∧ (∀ t, r = Response true t → response = t).
Proof.
  intros Hr Hget.
  pose proof (respond_returns gc self _ r Hr) as Hresp.
  set (response := match r with Response true t => t | _ => no_response end) in *.
  pose proof (update_history_index w self (build_prompt repr self text) response n Hget)
    as Hupd. cbv zeta in Hupd.
  do 4 eexists. split; [exact Hresp|]. split.
  { by apply (chat_turn_status _ _ _ _ _ _ _ _ _ Hresp Hupd). }
  split; [|split].
  - split; [|split]; simpl.
    + apply get_set_eq.
    + apply last_snoc.
    + done.
  - unfold response. by destruct r as [|[] t].
  - intros t ->. done.
Qed.

Lemma empty_response_sentinel_witness :
  ∃ response w' self' state,
    respond (λ _ _, Ok NoResponse) demo_client
      (build_prompt elided_repr demo_client "hi") = Ok response
    ∧ chat_turn elided_repr (λ _ _, Ok NoResponse) empty_world demo_client "hi"
      = Ok (w', self', state)
    ∧ recorded w' self' 0 (build_prompt elided_repr demo_client "hi") response
    ∧ (truth NoResponse = false → response = "No response received.")
    ∧ (∀ t, NoResponse = Response true t → response = t).
Proof.
  apply (empty_response_sentinel elided_repr (λ _ _, Ok NoResponse) empty_world
           demo_client "hi" NoResponse 0).
  - reflexivity.
  - reflexivity.
Defined.

(** C6 as stated fails: a response that is true and whose text is empty
    is recorded with the empty text, not with the fixed string. *)
Lemma empty_text_is_recorded_as_is :
  ∃ w' self' state,
    chat_turn elided_repr (λ _ _, Ok (Response true "")) empty_world demo_client "hi"
      = Ok (w', self', state)
    ∧ Py.get (KInt 1) (history self')
      = Some (VTurn (build_prompt elided_repr demo_client "hi") "")
    ∧ response_csv w' = Some ""
    ∧ Py.get (KInt 1) (history self')
      ≠ Some (VTurn (build_prompt elided_repr demo_client "hi") "No response received.").
Proof.
  do 3 eexists. split; [vm_compute; reflexivity|].
  repeat split; vm_compute; congruence.
Qed.

Example true_response_with_empty_text :
  respond (λ _ _, Ok (Response true "")) demo_client "hi" = Ok "".
Proof. reflexivity. Qed.

(** ** The configuration *)

Lemma load_history_config w self self' :
  load_history w self = Ok self' → config_kept self self'.
Proof.
  unfold load_history. destruct (files w !! history_file self) as [[| |]|];
    simpl; intros [= <-]; done.
Qed.

Lemma open_chat_config w self title self' :
  open_chat w self title = Ok self' → config_kept self self'.
Proof.
  unfold open_chat.
  destruct (load_history w _) as [self1|e] eqn:Hload; simpl; [|done].
  intros [= <-]. apply load_history_config in Hload. exact Hload.
Qed.

Lemma update_history_config w self prompt response w' self' status :
  update_history w self prompt response = Ok (w', self', status) →
  config_coerced self self'.
Proof.
  unfold update_history.
  destruct (Z.ltb_spec (questions self) 1) as [Hlt|Hge]; simpl;
    destruct (Py.get _ _) as [[| n |]|]; try done;
    destruct (_ =? _); intros [= _ <- _]; repeat split; simpl; lia.
Qed.

Lemma chat_turn_config repr gc w self text w' self' state :
  chat_turn repr gc w self text = Ok (w', self', state) →
  config_coerced self self'.
Proof.
  unfold chat_turn. cbv zeta.
  destruct (respond gc self _) as [response|e]; cbn [mbind result_bind]; [|done].
  destruct (update_history w self _ response) as [[[w1 self1] status]|e] eqn:Hupd;
    cbn [mbind result_bind]; [|done].
  apply update_history_config in Hupd.
  destruct (_ || _); by intros [= _ <- _].
Qed.

Lemma chat_loop_config repr script : ∀ w self,
  let self' := (chat_loop repr w self script).1.2 in
  model self' = model self
  ∧ context_window self' = context_window self
  ∧ (questions self' = questions self ∨ questions self' = Z.max (questions self) 1).
Proof.
  induction script as [|[text gc] script IH]; intros w self; simpl.
  - auto.
  - destruct (chat_turn repr gc w self text) as [[[w1 self1] [|]]|e] eqn:Hturn; simpl.
    + apply chat_turn_config in Hturn as (Hm & Hc & Hq).
      specialize (IH w1 self1). simpl in IH. destruct IH as (IHm & IHc & IHq).
      rewrite IHm, IHc, Hm, Hc. repeat split. right. lia.
    + apply chat_turn_config in Hturn as (Hm & Hc & Hq). auto.
    + auto.
Qed.

(** C9, as amended. [model] and [context_window] are never changed by
    loading, updating, a turn or a whole run of [start_chat], and saving
    changes no attribute at all; [questions] is unchanged by loading, and a
    call of [update_history] leaves it at [max questions 1]: unchanged when
    it is at least 1, set to 1 otherwise. *)
Theorem configuration_frame repr w self :
  (∀ self', load_history w self = Ok self' → config_kept self self')
  ∧ (∀ title self', open_chat w self title = Ok self' → config_kept self self')
  ∧ (∀ prompt response w' self' status,
       update_history w self prompt response = Ok (w', self', status) →
       config_coerced self self')
  ∧ (∀ gc text w' self' state,
       chat_turn repr gc w self text = Ok (w', self', state) →
       config_coerced self self')
  ∧ (∀ title script,
       let self' := (start_chat repr w self title script).1.2 in
       model self' = model self
       ∧ context_window self' = context_window self
       ∧ (questions self' = questions self
          ∨ questions self' = Z.max (questions self) 1))
  ∧ (1 ≤ questions self → Z.max (questions self) 1 = questions self).
Proof.
  split; [|split; [|split; [|split; [|split]]]].
  - intros self'. apply load_history_config.
  - intros title self'. apply open_chat_config.
  - intros p r w' self' s. apply update_history_config.
  - intros gc text w' self' st. apply chat_turn_config.
  - intros title script. unfold start_chat.
    destruct (open_chat w self title) as [self1|e] eqn:Hopen; simpl; [|auto].
    apply open_chat_config in Hopen as (Hm & Hc & Hq).
    pose proof (chat_loop_config repr script w self1) as Hloop. simpl in Hloop.
    rewrite <-Hm, <-Hc, <-Hq. exact Hloop.
  - lia.
Qed.

Lemma configuration_frame_witness :
  config_coerced demo_client demo_after_one_turn.
Proof.
  destruct (configuration_frame elided_repr empty_world demo_client)
    as (_ & _ & Hupd & _).
  apply (Hupd "hi" "hello"
           (after_updates empty_world demo_client [("hi", "hello")]).1
           demo_after_one_turn "continue").
  vm_compute. reflexivity.
Defined.

(** C9 as stated fails: a client built with [questions = 0] has
    [questions = 1] after its first call of [update_history]. *)
Lemma update_history_rewrites_questions :
  let self := opened empty_world (init "gemini-2.0-flash" 0 15) "demo" in
  questions self = 0
  ∧ questions (after_updates empty_world self [("hi", "hello")]).2 = 1.
Proof. split; vm_compute; reflexivity. Qed.

(** ** The entry point *)

(** C8. When the session raises [SystemExit], [main] logs the
    information [Chat ended successfully.] and no critical error; when it
    raises anything else, [main] logs a critical error and not that
    information; no run does both. *)
Theorem main_error_classification (body : result string) :
  (body = Raise SystemExit →
   Gemini.main body = [Gemini.Info "Starting Gemini Client..."; ended_successfully])
  ∧ (∀ e, body = Raise e → e ≠ SystemExit →
     Gemini.main body = [Gemini.Info "Starting Gemini Client..."; Gemini.Critical])
  ∧ ¬ (ended_successfully ∈ Gemini.main body ∧ Gemini.Critical ∈ Gemini.main body).
Proof.
  split; [|split].
  - by intros ->.
  - intros e -> Hne. by destruct e.
  - intros [Hinfo Hcrit]. unfold Gemini.main, ended_successfully in *.
    destruct body as [v|[]]; simpl in *;
      repeat match goal with
      | H : _ ∈ [] |- _ => by apply not_elem_of_nil in H
      | H : _ ∈ _ :: _ |- _ => apply elem_of_cons in H as [H|H]; [done|]
      end.
Qed.

Lemma main_error_classification_witness :
  Gemini.main (Raise SystemExit)
    = [Gemini.Info "Starting Gemini Client..."; ended_successfully]
  ∧ Gemini.main (Raise (ApiError "503"))
    = [Gemini.Info "Starting Gemini Client..."; Gemini.Critical].
Proof.
  split.
  - destruct (main_error_classification (Raise SystemExit)) as (Hexit & _ & _).
    apply Hexit. reflexivity.
  - destruct (main_error_classification (Raise (ApiError "503"))) as (_ & Hother & _).
    apply (Hother (ApiError "503")); [reflexivity|discriminate].
Defined.

Example remote_failure_is_critical :
  main_run elided_repr empty_world "demo" [("hi", λ _ _, Raise (ApiError "503"))]
  = [Gemini.Info "Starting Gemini Client..."; Gemini.Critical].
Proof. vm_compute. reflexivity. Qed.

Example limit_reached_ends_successfully :
  Gemini.main
    (Raise (start_chat elided_repr empty_world (init "gemini-2.0-flash" 1 15) "demo"
              [("hi", answers "hello")]).2)
  = [Gemini.Info "Starting Gemini Client..."; ended_successfully].
Proof. vm_compute. reflexivity. Qed.

(** * Further properties *)

(** ** The logger: commas and fields *)

Section log_facts.
Implicit Types (s : string).

Lemma string_app_cons c s1 s2 : String c s1 +:+ s2 = String c (s1 +:+ s2).
Proof. reflexivity. Qed.

Lemma string_app_assoc s1 s2 s3 : (s1 +:+ s2) +:+ s3 = s1 +:+ (s2 +:+ s3).
Proof.
  induction s1 as [|c s1 IH]; [done|]. by rewrite !string_app_cons, IH.
Qed.

Lemma replace_comma_clean s : has_comma (Log.replace_comma s) = false.
Proof.
  induction s as [|c s IH]; simpl; [done|]. rewrite IH, orb_false_r.
  destruct (Ascii.eqb_spec c ","); [done|]. by apply Ascii.eqb_neq.
Qed.

Lemma replace_comma_length s :
  String.length (Log.replace_comma s) = String.length s.
Proof. induction s as [|c s IH]; simpl; [done|]. by rewrite IH. Qed.

Lemma split_comma_clean s : has_comma s = false → Log.split_comma s = [s].
Proof.
  induction s as [|c s IH]; simpl; [done|]. intros Hc.
  apply orb_false_iff in Hc as [Hc Hs]. rewrite Hc. by rewrite IH.
Qed.

Lemma split_comma_field s rest :
  has_comma s = false →
  Log.split_comma (s +:+ "," +:+ rest) = s :: Log.split_comma rest.
Proof.
  induction s as [|c s IH]; [done|]. intros Hc. simpl in Hc.
  apply orb_false_iff in Hc as [Hc Hs].
  rewrite string_app_cons. simpl. rewrite Hc. by rewrite IH.
Qed.

Lemma has_comma_pretty_N_go x : ∀ s,
  has_comma (pretty_N_go x s) = has_comma s.
Proof.
  induction (N.lt_wf_0 x) as [x _ IH]; intros s.
  assert (x = 0 ∨ 0 < x)%N as [->|Hpos] by lia.
  - by rewrite pretty_N_go_0.
  - rewrite pretty_N_go_step by done. rewrite IH by (by apply N.div_lt).
    simpl. unfold pretty_N_char. by repeat case_match.
Qed.

Lemma has_comma_pretty (z : Z) : has_comma (pretty z) = false.
Proof.
  destruct z as [|p|p]; unfold pretty, pretty_Z; [done| |].
  - unfold pretty, pretty_positive, pretty, pretty_N.
    rewrite decide_False by done. apply has_comma_pretty_N_go.
  - simpl. unfold pretty, pretty_positive, pretty, pretty_N.
    rewrite decide_False by done. apply has_comma_pretty_N_go.
Qed.

End log_facts.

(** ** The logger: what a call appends *)

Lemma emit_record levelname asctime text g path :
  Log.handler g = Log.File path →
  Log.emit levelname asctime text g =
    {| Log.handler := Log.File path;
       Log.disk :=
         <[path := default "" (Log.disk g !! path)
                     +:+ (asctime +:+ "," +:+ levelname +:+ "," +:+ text)
                     +:+ Log.newline]> (Log.disk g) |}.
Proof.
  intros Hh. unfold Log.emit. rewrite Hh. f_equal. f_equal.
  by rewrite !string_app_assoc.
Qed.

Lemma split_record asctime levelname text :
  has_comma asctime = false →
  has_comma levelname = false →
  Log.split_comma (asctime +:+ "," +:+ levelname +:+ "," +:+ text)
  = asctime :: levelname :: Log.split_comma text.
Proof. intros Ha Hl. by rewrite !split_comma_field. Qed.

Lemma message_text_clean custom fallback :
  has_comma fallback = false → has_comma (message_text custom fallback) = false.
Proof.
  intros Hf. destruct custom as [[|c m]|]; simpl; try done.
  apply (replace_comma_clean (String c m)).
Qed.

(** X1. While the root logger writes to a file, [info] appends exactly one
    line to it and touches nothing else; the line splits at the commas into
    three fields: the time, [INFO] and the message with every comma turned
    into a dot, or [No message provided.] when the message is missing or
    empty. *)
Theorem info_appends_three_fields message asctime g path :
  Log.handler g = Log.File path →
  has_comma asctime = false →
  ∃ record text,
    Log.info message asctime g =
      {| Log.handler := Log.File path;
         Log.disk :=
           <[path := default "" (Log.disk g !! path) +:+ record +:+ Log.newline]>
             (Log.disk g) |}
    ∧ Log.split_comma record = [asctime; "INFO"; text]
    ∧ has_comma text = false
    ∧ (∀ m, message = Some m → m ≠ "" →
       text = Log.replace_comma m ∧ String.length text = String.length m)
    ∧ (message = None ∨ message = Some "" → text = "No message provided.").
Proof.
  intros Hh Ha.
  exists (asctime +:+ "," +:+ "INFO" +:+ "," +:+ message_text message "No message provided."),
    (message_text message "No message provided.").
  split; [|split; [|split; [|split]]].
  - unfold Log.info. destruct message as [[|c m]|]; by rewrite (emit_record _ _ _ _ path).
  - rewrite split_record by done. f_equal. f_equal.
    apply split_comma_clean. by apply message_text_clean.
  - by apply message_text_clean.
  - intros m -> Hm. destruct m as [|c m]; [done|]. split; [done|].
    apply (replace_comma_length (String c m)).
  - by intros [-> | ->].
Qed.

Lemma info_appends_three_fields_witness :
  ∃ record text,
    Log.info (Some "Starting, now") "2026-01-01 10:00:00"
      (Log.init "gemini_log.csv" Log.default_header_row no_logging).2 =
      {| Log.handler := Log.File "log/gemini_log.csv";
         Log.disk :=
           <["log/gemini_log.csv" :=
               default ""
                 (Log.disk (Log.init "gemini_log.csv" Log.default_header_row no_logging).2
                    !! "log/gemini_log.csv")
               +:+ record +:+ Log.newline]>
             (Log.disk (Log.init "gemini_log.csv" Log.default_header_row no_logging).2) |}
    ∧ Log.split_comma record = ["2026-01-01 10:00:00"; "INFO"; text]
    ∧ has_comma text = false
    ∧ (∀ m, Some "Starting, now" = Some m → m ≠ "" →
       text = Log.replace_comma m ∧ String.length text = String.length m)
    ∧ (Some "Starting, now" = None ∨ Some "Starting, now" = Some "" →
       text = "No message provided.").
Proof.
  apply (info_appends_three_fields (Some "Starting, now") "2026-01-01 10:00:00"
           (Log.init "gemini_log.csv" Log.default_header_row no_logging).2
           "log/gemini_log.csv").
  - reflexivity.
  - reflexivity.
Defined.

Lemma report_reports module_file path_name levelname :
  has_comma levelname = false →
  reports levelname (Log.report module_file path_name levelname)
    (Log.get_error_details module_file path_name).
Proof.
  intros Hl custom asctime e g path Hh Htb Ha He.
  unfold Log.report, Log.get_error_details.
  destruct (last (Log.traceback e)) as [innermost|] eqn:Hlast.
  2: { apply last_None in Hlast. done. }
  do 3 eexists. split; [by rewrite (emit_record _ _ _ _ path)|].
  split; [done|]. split; [done|]. split; [done|].
  simpl. intros Hf. rewrite split_record by done.
  rewrite !split_comma_field; try done.
  - rewrite split_comma_clean by apply has_comma_pretty. done.
  - apply message_text_clean, replace_comma_clean.
Qed.

(** X2. While an exception with a traceback is handled and the root
    logger writes to a file, [error] and [critical] append exactly one line;
    when the name of the exception and of the file hold no comma it splits
    into six fields: time, level, name of the exception, message, file and
    line, where the message is the custom one if given and not empty, the
    text of the exception otherwise, with commas turned into dots. *)
Theorem error_critical_append_six_fields module_file path_name :
  reports "ERROR" (Log.error module_file path_name)
    (Log.get_error_details module_file path_name)
  ∧ reports "CRITICAL" (Log.critical module_file path_name)
      (Log.get_error_details module_file path_name).
Proof. split; by apply report_reports. Qed.

Example error_line_on_division_by_zero :
  match Log.error demo_module_file last_component (Some "ZeroDivisionError occurred")
          "2026-01-01 10:00:00" (Some demo_exc)
          (Log.init "test_log.csv" Log.default_header_row no_logging).2 with
  | inr g => Log.disk g !! "log/test_log.csv"
  | inl _ => None
  end
  = Some "DATE,LEVEL,MESSAGE,ERROR,FILE,LINE
2026-01-01 10:00:00,ERROR,ZeroDivisionError,ZeroDivisionError occurred,log_test.py,42
".
Proof. vm_compute. reflexivity. Qed.

(** X3. Outside the handling of an exception [error] and [critical] log
    nothing: they fail with [AttributeError]; with an exception whose
    traceback is empty they fail with [IndexError]. *)
Theorem error_critical_need_an_exception module_file path_name custom asctime g :
  Log.error module_file path_name custom asctime None g = inl Log.AttributeError
  ∧ Log.critical module_file path_name custom asctime None g = inl Log.AttributeError
  ∧ ∀ e, Log.traceback e = [] →
      Log.error module_file path_name custom asctime (Some e) g = inl Log.IndexError
      ∧ Log.critical module_file path_name custom asctime (Some e) g
        = inl Log.IndexError.
Proof.
  split; [done|]. split; [done|]. intros e He.
  unfold Log.error, Log.critical, Log.report, Log.get_error_details.
  by rewrite He.
Qed.

Lemma error_critical_append_six_fields_witness :
  ∃ g' d record,
    Log.error demo_module_file last_component (Some "ZeroDivisionError occurred")
      "2026-01-01 10:00:00" (Some demo_exc)
      (Log.init "test_log.csv" Log.default_header_row no_logging).2 = inr g'
    ∧ Log.get_error_details demo_module_file last_component (Some demo_exc) = inr d
    ∧ Log.handler g' = Log.File "log/test_log.csv"
    ∧ Log.disk g' =
        <["log/test_log.csv" :=
            default ""
              (Log.disk (Log.init "test_log.csv" Log.default_header_row no_logging).2
                 !! "log/test_log.csv")
            +:+ record +:+ Log.newline]>
          (Log.disk (Log.init "test_log.csv" Log.default_header_row no_logging).2)
    ∧ (has_comma (Log.file d) = false →
       Log.split_comma record =
         ["2026-01-01 10:00:00"; "ERROR"; Log.exc_type demo_exc;
          message_text (Some "ZeroDivisionError occurred")
            (Log.replace_comma (Log.exc_text demo_exc));
          Log.file d; pretty (Log.line d)]).
Proof.
  apply (proj1 (error_critical_append_six_fields demo_module_file last_component)
           (Some "ZeroDivisionError occurred") "2026-01-01 10:00:00" demo_exc
           (Log.init "test_log.csv" Log.default_header_row no_logging).2
           "log/test_log.csv").
  - reflexivity.
  - discriminate.
  - reflexivity.
  - reflexivity.
Defined.

(** ** The logger: the frame that is reported *)

Lemma innermost_matching {A : Type} (P : A → Prop) `{∀ x, Decision (P x)} (l : list A) :
  match head (filter P (reverse l)) with
  | Some x => ∃ before after, l = before ++ x :: after ∧ P x ∧ Forall (λ y, ¬ P y) after
  | None => Forall (λ y, ¬ P y) l
  end.
Proof.
  induction l as [|x l IH] using rev_ind; [by constructor|].
  rewrite reverse_snoc, filter_cons.
  destruct (decide (P x)) as [HP|HP]; simpl.
  - exists l, []. by repeat split.
  - destruct (head (filter P (reverse l))) as [y|].
    + destruct IH as (before & after & -> & Hy & Hafter).
      exists before, (after ++ [x]). rewrite <-app_assoc. split; [done|].
      split; [done|]. apply Forall_app. split; [done|]. by constructor.
    + apply Forall_app. split; [done|]. by constructor.
Qed.

(** X4. The file and line [error] and [critical] report are those of one
    frame of the traceback: the innermost frame that lies in the log
    module's own file if there is one, otherwise the innermost frame of
    all. *)
Theorem reported_frame_is_innermost module_file path_name e d :
  Log.get_error_details module_file path_name (Some e) = inr d →
  ∃ before f after,
    Log.traceback e = before ++ f :: after
    ∧ Log.file d = path_name (Log.filename f)
    ∧ Log.line d = Log.lineno f
    ∧ Forall (λ f', Log.filename f' ≠ module_file) after
    ∧ (Log.filename f = module_file
       ∨ after = [] ∧ Forall (λ f', Log.filename f' ≠ module_file) before).
Proof.
  unfold Log.get_error_details.
  destruct (last (Log.traceback e)) as [innermost|] eqn:Hlast; [|done].
  intros [= <-]. simpl.
  pose proof (innermost_matching (λ f, Log.filename f = module_file) (Log.traceback e))
    as Hfind.
  destruct (head (filter _ (reverse (Log.traceback e)))) as [f|]; simpl.
  - destruct Hfind as (before & after & Htb & Hf & Hafter).
    exists before, f, after. repeat split; try done. by left.
  - apply last_Some in Hlast as [before Htb].
    exists before, innermost, []. rewrite Htb in Hfind.
    apply Forall_app in Hfind as [Hbefore _].
    repeat split; try done. right. done.
Qed.

Lemma reported_frame_is_innermost_witness :
  ∃ before f after,
    Log.traceback demo_exc = before ++ f :: after
    ∧ Log.file {| Log.error_name := "ZeroDivisionError";
                  Log.message := "division by zero";
                  Log.file := "log_test.py"; Log.line := 42 |}
      = last_component (Log.filename f)
    ∧ Log.line {| Log.error_name := "ZeroDivisionError";
                  Log.message := "division by zero";
                  Log.file := "log_test.py"; Log.line := 42 |}
      = Log.lineno f
    ∧ Forall (λ f', Log.filename f' ≠ demo_module_file) after
    ∧ (Log.filename f = demo_module_file
       ∨ after = [] ∧ Forall (λ f', Log.filename f' ≠ demo_module_file) before).
Proof.
  apply (reported_frame_is_innermost demo_module_file last_component demo_exc).
  vm_compute. reflexivity.
Defined.

(** ** The logger: construction *)

Lemma log_path_inj a b : "log/" +:+ a = "log/" +:+ b → a = b.
Proof. intros Heq. by apply (inj (String.append "log/")) in Heq. Qed.

Lemma basicConfig_configured path g :
  Log.handler g ≠ Log.Unconfigured → Log.basicConfig path g = g.
Proof. unfold Log.basicConfig. by destruct (Log.handler g). Qed.

Lemma init_disk file_name header_row g :
  Log.disk (Log.init file_name header_row g).2 =
    match Log.disk g !! ("log/" +:+ file_name) with
    | Some (String _ _) => Log.disk g
    | _ => <["log/" +:+ file_name := header_row +:+ Log.newline]> (Log.disk g)
    end.
Proof.
  unfold Log.init, Log.basicConfig. set (path := "log/" +:+ file_name).
  destruct (Log.handler g); simpl;
    destruct (Log.disk g !! path) as [[|c content]|] eqn:Hd; simpl;
    rewrite ?lookup_insert_eq, ?Hd; simpl; try done.
  by rewrite insert_insert_eq.
Qed.

Lemma init_handler file_name header_row g :
  Log.handler (Log.init file_name header_row g).2 =
    match Log.handler g with
    | Log.Unconfigured => Log.File ("log/" +:+ file_name)
    | h => h
    end.
Proof.
  unfold Log.init, Log.basicConfig. set (path := "log/" +:+ file_name).
  destruct (Log.handler g) eqn:Hh; simpl;
    destruct (Log.disk g !! path) as [[|c content]|] eqn:Hd; simpl;
    rewrite ?lookup_insert_eq, ?Hd; simpl; by rewrite ?Hh.
Qed.

Lemma header_line_not_empty header_row :
  ∃ c content, header_row +:+ Log.newline = String c content.
Proof. destruct header_row; simpl; eauto. Qed.

(** X5. Constructing a [Log] never truncates a log that has content: a
    file that exists and is not empty is left as it is, with the rest of the
    files; a missing or empty file receives the header row and a newline.
    Afterwards the file is not empty and the root logger has a handler, so
    constructing any further [Log] on the same file changes nothing. *)
Theorem init_keeps_existing_log file_name header_row g :
  let path := "log/" +:+ file_name in
  let g' := (Log.init file_name header_row g).2 in
  (∀ content, Log.disk g !! path = Some content → content ≠ "" →
     Log.disk g' = Log.disk g)
  ∧ (Log.disk g !! path = None ∨ Log.disk g !! path = Some "" →
     Log.disk g' !! path = Some (header_row +:+ Log.newline))
  ∧ (∀ other, other ≠ path → Log.disk g' !! other = Log.disk g !! other)
  ∧ Log.handler g' ≠ Log.Unconfigured
  ∧ (∀ header_row', (Log.init file_name header_row' g').2 = g').
Proof.
  intros path g'.
  assert (Log.handler g' ≠ Log.Unconfigured) as Hhandler.
  { unfold g'. rewrite init_handler. by destruct (Log.handler g). }
  assert (∃ c content, Log.disk g' !! path = Some (String c content)) as Hfull.
  { unfold g'. rewrite init_disk. fold path.
    destruct (header_line_not_empty header_row) as (c & content & Hline).
    destruct (Log.disk g !! path) as [[|c' content']|] eqn:Hd;
      rewrite ?lookup_insert_eq, ?Hline; eauto. }
  split; [|split; [|split; [|split]]].
  - intros content Hd Hne. unfold g'. rewrite init_disk. fold path. rewrite Hd.
    by destruct content.
  - intros Hd. unfold g'. rewrite init_disk. fold path.
    destruct Hd as [Hd|Hd]; rewrite Hd; by rewrite lookup_insert_eq.
  - intros other Hne. unfold g'. rewrite init_disk. fold path.
    destruct (Log.disk g !! path) as [[|c content]|]; by rewrite ?lookup_insert_ne.
  - done.
  - intros header_row'. destruct Hfull as (c & content & Hd).
    unfold Log.init at 1. fold path.
    rewrite basicConfig_configured by done. rewrite Hd. by destruct g'.
Qed.

Lemma init_keeps_existing_log_witness :
  Log.disk
    (Log.init "gemini_log.csv" "DATE,LEVEL"
       (Log.info (Some "Starting Gemini Client...") "2026-01-01 10:00:00"
          (Log.init "gemini_log.csv" Log.default_header_row no_logging).2)).2
  = Log.disk
      (Log.info (Some "Starting Gemini Client...") "2026-01-01 10:00:00"
         (Log.init "gemini_log.csv" Log.default_header_row no_logging).2).
Proof.
  eapply (proj1 (init_keeps_existing_log "gemini_log.csv" "DATE,LEVEL"
                   (Log.info (Some "Starting Gemini Client...") "2026-01-01 10:00:00"
                      (Log.init "gemini_log.csv" Log.default_header_row no_logging).2))).
  - vm_compute. reflexivity.
  - discriminate.
Defined.

Lemma emit_other levelname asctime text g other :
  Log.handler g ≠ Log.File other →
  Log.disk (Log.emit levelname asctime text g) !! other = Log.disk g !! other.
Proof.
  intros Hh. unfold Log.emit. destruct (Log.handler g) as [|path|]; simpl; try done.
  rewrite lookup_insert_ne; [done|]. by intros ->.
Qed.

(** X6. The root logger keeps the file of the first [Log] that was
    constructed: after a [Log] on file [a] and then one on another file [b],
    the handler still writes to [log/a]; [info], [error] and [critical]
    never change [log/b], which holds just its header row when it did not
    exist before. *)
Theorem records_go_to_first_log a b header_a header_b g :
  a ≠ b →
  Log.handler g = Log.Unconfigured →
  let g2 := (Log.init b header_b (Log.init a header_a g).2).2 in
  Log.handler g2 = Log.File ("log/" +:+ a)
  ∧ (Log.disk g !! ("log/" +:+ b) = None →
     Log.disk g2 !! ("log/" +:+ b) = Some (header_b +:+ Log.newline))
  ∧ (∀ message asctime,
       Log.disk (Log.info message asctime g2) !! ("log/" +:+ b)
       = Log.disk g2 !! ("log/" +:+ b))
  ∧ (∀ module_file path_name levelname custom asctime active g',
       Log.report module_file path_name levelname custom asctime active g2 = inr g' →
       Log.disk g' !! ("log/" +:+ b) = Log.disk g2 !! ("log/" +:+ b)).
Proof.
  intros Hab Hh g2.
  assert (Log.handler g2 = Log.File ("log/" +:+ a)) as Hh2.
  { unfold g2. rewrite !init_handler. by rewrite Hh. }
  assert (Log.handler g2 ≠ Log.File ("log/" +:+ b)) as Hne.
  { rewrite Hh2. intros Heq. apply Hab, log_path_inj. congruence. }
  split; [done|]. split; [|split].
  - intros Hb. unfold g2. rewrite !init_disk.
    assert ("log/" +:+ a ≠ "log/" +:+ b) as Hpath.
    { intros Heq. by apply log_path_inj in Heq. }
    assert (Log.disk g !! ("log/" +:+ b)
            = match Log.disk g !! ("log/" +:+ a) with
              | Some (String _ _) => Log.disk g
              | _ => <["log/" +:+ a := header_a +:+ Log.newline]> (Log.disk g)
              end !! ("log/" +:+ b)) as Hsame.
    { destruct (Log.disk g !! ("log/" +:+ a)) as [[|c content]|];
        by rewrite ?lookup_insert_ne. }
    rewrite <-Hsame, Hb. by rewrite lookup_insert_eq.
  - intros message asctime. unfold Log.info.
    destruct message as [[|c m]|]; by apply emit_other.
  - intros module_file path_name levelname custom asctime active g'.
    unfold Log.report.
    destruct (Log.get_error_details _ _ active) as [f|d]; [done|].
    intros [= <-]. by apply emit_other.
Qed.

Lemma records_go_to_first_log_witness :
  let g2 := (Log.init "test_log.csv" Log.default_header_row
               (Log.init "gemini_log.csv" Log.default_header_row no_logging).2).2 in
  Log.handler g2 = Log.File "log/gemini_log.csv"
  ∧ Log.disk
      (Log.info (Some "This is an info message.") "2026-01-01 10:00:00" g2)
      !! "log/test_log.csv"
    = Log.disk g2 !! "log/test_log.csv".
Proof.
  intros g2.
  destruct (records_go_to_first_log "gemini_log.csv" "test_log.csv"
              Log.default_header_row Log.default_header_row no_logging)
    as (Hhandler & _ & Hinfo & _).
  - discriminate.
  - reflexivity.
  - split; [exact Hhandler|].
    exact (Hinfo (Some "This is an info message.") "2026-01-01 10:00:00").
Defined.

(** ** The logger: the header fields *)

Lemma split_comma_not_nil s : Log.split_comma s ≠ [].
Proof.
  destruct s as [|c s]; simpl; [done|].
  destruct (Ascii.eqb c ","); [done|]. by destruct (Log.split_comma s).
Qed.

Lemma concat_cons_char c field fields :
  String.concat "," (String c field :: fields)
  = String c (String.concat "," (field :: fields)).
Proof. by destruct fields. Qed.

Lemma concat_split_comma s : String.concat "," (Log.split_comma s) = s.
Proof.
  induction s as [|c s IH]; [done|]. simpl.
  destruct (Ascii.eqb_spec c ",") as [->|Hc].
  - pose proof (split_comma_not_nil s) as Hne.
    destruct (Log.split_comma s) as [|field fields]; [done|].
    change (String.concat "," ("" :: field :: fields))
      with ("," +:+ String.concat "," (field :: fields)).
    by rewrite IH.
  - pose proof (split_comma_not_nil s) as Hne.
    destruct (Log.split_comma s) as [|field fields]; [done|].
    by rewrite concat_cons_char, IH.
Qed.

Lemma split_comma_fields_clean s :
  Forall (λ field, has_comma field = false) (Log.split_comma s).
Proof.
  induction s as [|c s IH]; simpl; [by repeat constructor|].
  destruct (Ascii.eqb c ",") eqn:Hc; [by constructor|].
  destruct (Log.split_comma s) as [|field fields]; [by repeat constructor; simpl; rewrite Hc|].
  inversion IH as [|? ? Hfield Hfields]; subst.
  constructor; [|done]. simpl. by rewrite Hc, Hfield.
Qed.

(** X7. The [fields] of a [Log] are the columns of its header row: joined
    with commas they give the header row again, none of them holds a comma,
    and there is always at least one. The file of the instance is
    [log/] followed by the file name. *)
Theorem fields_are_header_columns file_name header_row g :
  String.concat "," (Log.fields (Log.init file_name header_row g).1) = header_row
  ∧ Forall (λ field, has_comma field = false)
      (Log.fields (Log.init file_name header_row g).1)
  ∧ Log.fields (Log.init file_name header_row g).1 ≠ []
  ∧ Log.log_file (Log.init file_name header_row g).1 = "log/" +:+ file_name.
Proof.
  simpl. split; [apply concat_split_comma|].
  split; [apply split_comma_fields_clean|].
  split; [apply split_comma_not_nil|done].
Qed.

Example default_header_fields :
  Log.fields (Log.init Log.default_file_name Log.default_header_row no_logging).1
  = ["DATE"; "LEVEL"; "MESSAGE"; "ERROR"; "FILE"; "LINE"].
Proof. reflexivity. Qed.

(** ** The client: what one update does to the state *)

Lemma keys_set_keeps d k v k' : k' ∈ keys d → k' ∈ keys (Py.set k v d).
Proof.
  unfold keys. induction d as [|[k1 v1] d IH]; simpl; [by intros ?%not_elem_of_nil|].
  intros Hin. destruct (decide (k1 = k)); simpl; [done|].
  apply elem_of_cons in Hin as [->|Hin]; [left|right; by apply IH].
Qed.

Lemma update_history_returns w self prompt response w' self' status :
  update_history w self prompt response = Ok (w', self', status) →
  ∃ n, Py.get (KStr "history_index") (history self) = Some (VInt n).
Proof.
  unfold update_history.
  destruct (questions self <? 1); simpl;
    destruct (Py.get _ _) as [[| n |]|]; try done; by exists n.
Qed.

(** X8. Every call of [update_history] that returns has written the
    history to its file: the file holds the dump of the history the client
    now has in memory, no other history file and not the response file is
    touched, and the client keeps its title, its file and the counter of the
    session start. *)
Theorem update_history_persists w self prompt response w' self' status :
  update_history w self prompt response = Ok (w', self', status) →
  files w' = <[history_file self := Json (Json.dump (history self'))]> (files w)
  ∧ response_csv w' = response_csv w
  ∧ history_file self' = history_file self
  ∧ chat_title self' = chat_title self
  ∧ history_index self' = history_index self
  ∧ load_history w' self'
    = Ok (set_history self' (Json.load (Json.dump (history self')))
            (Json.load (Json.dump (history self')))).
Proof.
  intros Hupd.
  destruct (update_history_returns _ _ _ _ _ _ _ Hupd) as [n Hget].
  rewrite (update_history_index _ _ _ _ _ Hget) in Hupd. cbv zeta in Hupd.
  injection Hupd as <- <- _. simpl. repeat split.
  unfold load_history. simpl. by rewrite lookup_insert_eq.
Qed.

Lemma update_history_persists_witness :
  files (after_updates empty_world demo_client [("hi", "hello")]).1
  = <[history_file demo_client := Json (Json.dump (history demo_after_one_turn))]>
      (files empty_world)
  ∧ response_csv (after_updates empty_world demo_client [("hi", "hello")]).1
    = response_csv empty_world
  ∧ history_file demo_after_one_turn = history_file demo_client
  ∧ chat_title demo_after_one_turn = chat_title demo_client
  ∧ history_index demo_after_one_turn = history_index demo_client
  ∧ load_history (after_updates empty_world demo_client [("hi", "hello")]).1
      demo_after_one_turn
    = Ok (set_history demo_after_one_turn
            (Json.load (Json.dump (history demo_after_one_turn)))
            (Json.load (Json.dump (history demo_after_one_turn)))).
Proof.
  apply (update_history_persists empty_world demo_client "hi" "hello"
           (after_updates empty_world demo_client [("hi", "hello")]).1
           demo_after_one_turn "continue").
  vm_compute. reflexivity.
Defined.

Lemma update_history_type_error w self prompt response :
  Py.get (KStr "history_index") (history self) = None
  ∨ (∃ s, Py.get (KStr "history_index") (history self) = Some (VStr s))
  ∨ (∃ p r, Py.get (KStr "history_index") (history self) = Some (VTurn p r)) →
  update_history w self prompt response = Raise TypeError.
Proof.
  intros Hget. unfold update_history.
  destruct (questions self <? 1); simpl;
    destruct Hget as [->|[[s ->]|(p & r & ->)]]; done.
Qed.

(** X9. A call of [update_history] on a history that holds an integer
    under [history_index] returns and loses nothing stored: the context is
    the old one with the new turn appended, every key of the history is
    still there, and every entry other than the counter and the key of the
    new turn has its old value. When [history_index] is missing, or holds a
    string or a turn dictionary, the call raises [TypeError]. *)
Theorem update_history_keeps_entries w self prompt response :
  (∀ n, Py.get (KStr "history_index") (history self) = Some (VInt n) →
     ∃ w' self' status,
       update_history w self prompt response = Ok (w', self', status)
       ∧ context self' = context self ++ [(KInt (n + 1), VTurn prompt response)]
       ∧ (∀ k, k ∈ keys (history self) → k ∈ keys (history self'))
       ∧ (∀ k, k ≠ KStr "history_index" → k ≠ KInt (n + 1) →
          Py.get k (history self') = Py.get k (history self)))
  ∧ (Py.get (KStr "history_index") (history self) = None
     ∨ (∃ s, Py.get (KStr "history_index") (history self) = Some (VStr s))
     ∨ (∃ p r, Py.get (KStr "history_index") (history self) = Some (VTurn p r)) →
     update_history w self prompt response = Raise TypeError).
Proof.
  split.
  - intros n Hget. rewrite (update_history_index _ _ _ _ _ Hget). cbv zeta.
    do 3 eexists. split; [done|]. simpl. split; [done|]. split.
    + intros k Hin. by do 2 apply keys_set_keeps.
    + intros k Hk1 Hk2. rewrite get_set_ne by done. by rewrite get_set_ne.
  - apply update_history_type_error.
Qed.

Lemma update_history_keeps_entries_witness :
  ∃ w' self' status,
    update_history empty_world demo_after_one_turn "bye" "ok" = Ok (w', self', status)
    ∧ context self' = context demo_after_one_turn ++ [(KInt (1 + 1), VTurn "bye" "ok")]
    ∧ (∀ k, k ∈ keys (history demo_after_one_turn) → k ∈ keys (history self'))
    ∧ (∀ k, k ≠ KStr "history_index" → k ≠ KInt (1 + 1) →
       Py.get k (history self') = Py.get k (history demo_after_one_turn)).
Proof.
  apply (proj1 (update_history_keeps_entries empty_world demo_after_one_turn "bye" "ok") 1).
  reflexivity.
Defined.

Example update_without_counter_raises :
  update_history empty_world
    (opened {| files := {[history_path "demo" := Json []]}; response_csv := None |}
       (init "gemini-2.0-flash" 100 15) "demo") "hi" "hello"
  = Raise TypeError.
Proof. vm_compute. reflexivity. Qed.

(** ** The client: the loop of [start_chat] *)

Lemma session_limit_coerced self n0 q :
  q = Z.max (questions self) 1 →
  session_limit (set_questions self q) n0 = session_limit self n0.
Proof. intros ->. unfold session_limit. simpl. lia. Qed.

Lemma chat_turn_session repr gc w self text title n0 n ts :
  session self title n0 n ts →
  (∀ m contents, ∃ r, gc m contents = Ok r) →
  ∃ response w1 self1,
    chat_turn repr gc w self text =
      Ok (w1, self1,
          if Z.of_nat (length ts) + 1 =? session_limit self n0
          then Terminated else AwaitingPrompt)
    ∧ session self1 title n0 (n + 1)
        (ts ++ [(KInt (n + 1), VTurn (build_prompt repr self text) response)])
    ∧ files w1 = <[history_file self := Json (Json.dump (history self1))]> (files w)
    ∧ response_csv w1 = Some response
    ∧ history_file self1 = history_file self
    ∧ session_limit self1 n0 = session_limit self n0.
Proof.
  intros Hs Hgc.
  destruct (Hgc (model self) [build_prompt repr self text]) as [r Hr].
  pose proof (respond_returns gc self _ r Hr) as Hresp.
  set (response := match r with Response true t => t | _ => no_response end) in *.
  destruct (update_history_session w self (build_prompt repr self text) response
              _ _ _ _ Hs) as [Hupd Hs1].
  set (self1 := set_history _ _ _) in *.
  exists response, {| files := files (save_history w self1); response_csv := Some response |},
    self1.
  split; [|split; [done|split; [done|split; [done|split; [done|]]]]].
  - rewrite (chat_turn_status _ _ _ _ _ _ _ _ _ Hresp Hupd).
    unfold session_limit.
    by destruct (Z.of_nat (length ts) + 1 =? Z.max (questions self) 1 + n0).
  - unfold session_limit. simpl. lia.
Qed.

Lemma chat_loop_within_limit repr s1 : ∀ w self title n0 n ts,
  session self title n0 n ts →
  answering s1 →
  Z.of_nat (length ts) + Z.of_nat (length s1) < session_limit self n0 →
  ∃ w1 self1 ts1,
    (∀ s2, chat_loop repr w self (s1 ++ s2) = chat_loop repr w1 self1 s2)
    ∧ session self1 title n0 (n + Z.of_nat (length s1)) (ts ++ ts1)
    ∧ length ts1 = length s1
    ∧ session_limit self1 n0 = session_limit self n0
    ∧ history_file self1 = history_file self
    ∧ (s1 = [] → w1 = w ∧ self1 = self)
    ∧ (s1 ≠ [] →
       files w1 = <[history_file self := Json (Json.dump (history self1))]> (files w)).
Proof.
  induction s1 as [|[text gc] s1 IH]; intros w self title n0 n ts Hs Hans Hlt.
  - exists w, self, []. change (Z.of_nat (length [])) with 0.
    rewrite Z.add_0_r, app_nil_r. split_and!; done.
  - unfold answering in Hans. apply Forall_cons in Hans as [Hgc Hans]. simpl in Hgc.
    destruct (chat_turn_session repr gc w self text _ _ _ _ Hs Hgc)
      as (response & w1 & self1 & Hturn & Hs1 & Hfiles & _ & Hfile & Hlimit).
    destruct (Z.eqb_spec (Z.of_nat (length ts) + 1) (session_limit self n0))
      as [Heq|_]; [simpl in Hlt; lia|].
    destruct (IH w1 self1 _ _ _ _ Hs1 Hans) as
      (w2 & self2 & ts2 & Hloop & Hs2 & Hlen & Hlimit2 & Hfile2 & Hnil & Hfiles2).
    { rewrite Hlimit, length_app. simpl in *. lia. }
    exists w2, self2,
      ((KInt (n + 1), VTurn (build_prompt repr self text) response) :: ts2).
    split; [|split; [|split; [|split; [|split; [|split]]]]].
    + intros s2. cbn [app chat_loop]. rewrite Hturn. apply Hloop.
    + replace (n + Z.of_nat (length ((text, gc) :: s1)))
        with (n + 1 + Z.of_nat (length s1)) by (simpl; lia).
      by rewrite <-app_assoc in Hs2.
    + simpl. by rewrite Hlen.
    + by rewrite Hlimit2.
    + by rewrite Hfile2.
    + done.
    + intros _. destruct s1 as [|turn s1].
      * by destruct Hnil as [-> ->].
      * rewrite Hfiles2 by done. rewrite Hfile, Hfiles. by rewrite insert_insert_eq.
Qed.

Lemma chat_loop_reaches_limit repr before last rest w self title n0 n ts :
  session self title n0 n ts →
  answering (before ++ [last]) →
  Z.of_nat (length ts) + Z.of_nat (length before) + 1 = session_limit self n0 →
  ∃ w' self' ts',
    chat_loop repr w self (before ++ last :: rest) = (w', self', SystemExit)
    ∧ session self' title n0 (n + Z.of_nat (length before) + 1) (ts ++ ts')
    ∧ Z.of_nat (length ts') = Z.of_nat (length before) + 1
    ∧ history_file self' = history_file self
    ∧ files w' = <[history_file self := Json (Json.dump (history self'))]> (files w).
Proof.
  intros Hs Hans Hlen. unfold answering in Hans.
  apply Forall_app in Hans as [Hbefore Hlast].
  apply Forall_inv in Hlast. destruct last as [text gc]. simpl in Hlast.
  destruct (chat_loop_within_limit repr before w self _ _ _ _ Hs Hbefore)
    as (w1 & self1 & ts1 & Hloop & Hs1 & Hlen1 & Hlimit1 & Hfile1 & Hnil & Hfiles1);
    [lia|].
  destruct (chat_turn_session repr gc w1 self1 text _ _ _ _ Hs1 Hlast)
    as (response & w2 & self2 & Hturn & Hs2 & Hfiles2 & _ & Hfile2 & _).
  destruct (Z.eqb_spec (Z.of_nat (length (ts ++ ts1)) + 1) (session_limit self1 n0))
    as [_|Hne]; [|rewrite Hlimit1, length_app in Hne; lia].
  exists w2, self2, (ts1 ++ [(KInt (n + Z.of_nat (length before) + 1),
                              VTurn (build_prompt repr self1 text) response)]).
  split_and!.
  - rewrite Hloop. cbn [chat_loop]. by rewrite Hturn.
  - by rewrite app_assoc.
  - rewrite length_app. simpl. lia.
  - by rewrite Hfile2.
  - rewrite Hfiles2, Hfile1. destruct before as [|turn before].
    + by destruct Hnil as [-> _].
    + rewrite Hfiles1 by done. by rewrite insert_insert_eq.
Qed.

Lemma start_chat_opened repr w self title script self0 :
  open_chat w self title = Ok self0 →
  start_chat repr w self title script = chat_loop repr w self0 script
  ∧ opened w self title = self0.
Proof. intros Hopen. unfold start_chat, opened. by rewrite Hopen. Qed.

Lemma open_chat_saved w self title o :
  files w !! history_path title = Some (Json o) →
  ∃ self0, open_chat w self title = Ok self0.
Proof.
  intros Hfile. unfold open_chat, load_history.
  cbn [history_file set_session]. rewrite Hfile. cbn [mbind result_bind]. eauto.
Qed.

(** X10. A new conversation ends at the limit: when the title has no
    record and the remote calls answer, [start_chat] runs exactly
    [max questions 1] turns and then leaves by [SystemExit]; the prompts
    after those are never read. The history then holds that many turns, the
    file of the title holds its dump, and [main] logs that the chat ended
    successfully. *)
Theorem start_chat_stops_at_limit repr w self title before last rest :
  no_record w (history_path title) →
  answering (before ++ [last]) →
  Z.of_nat (length before) + 1 = Z.max (questions self) 1 →
  ∃ w' self' ts,
    start_chat repr w self title (before ++ last :: rest) = (w', self', SystemExit)
    ∧ session self' title 0 (Z.max (questions self) 1) ts
    ∧ Z.of_nat (length ts) = Z.max (questions self) 1
    ∧ files w' = <[history_path title := Json (Json.dump (history self'))]> (files w)
    ∧ Gemini.main (Raise (start_chat repr w self title (before ++ last :: rest)).2)
      = [Gemini.Info "Starting Gemini Client..."; ended_successfully].
Proof.
  intros Hno Hans Hlen.
  pose proof (open_chat_fresh w self title Hno) as Hopen.
  destruct (start_chat_opened repr w self title (before ++ last :: rest) _ Hopen)
    as [Hstart Hopened].
  pose proof (opened_fresh_session w self title Hno) as Hs. rewrite Hopened in Hs.
  destruct (chat_loop_reaches_limit repr before last rest w _ _ _ _ _ Hs Hans)
    as (w' & self' & ts' & Hloop & Hs' & Hlen' & _ & Hfiles).
  { unfold session_limit. simpl. lia. }
  exists w', self', ts'. rewrite Hstart, Hloop. split; [done|].
  split; [|split; [lia|split; [done|done]]].
  replace (Z.max (questions self) 1) with (0 + Z.of_nat (length before) + 1) by lia.
  done.
Qed.

Lemma start_chat_stops_at_limit_witness :
  ∃ w' self' ts,
    start_chat elided_repr empty_world (init "gemini-2.0-flash" 2 1) "demo"
      ([("hi", answers "hello")] ++ ("bye", answers "ok") :: [("more", failing EOFError)])
    = (w', self', SystemExit)
    ∧ session self' "demo" 0 (Z.max (questions (init "gemini-2.0-flash" 2 1)) 1) ts
    ∧ Z.of_nat (length ts) = Z.max (questions (init "gemini-2.0-flash" 2 1)) 1
    ∧ files w' = <[history_path "demo" := Json (Json.dump (history self'))]>
                   (files empty_world)
    ∧ Gemini.main
        (Raise (start_chat elided_repr empty_world (init "gemini-2.0-flash" 2 1) "demo"
                  ([("hi", answers "hello")] ++ ("bye", answers "ok")
                     :: [("more", failing EOFError)])).2)
      = [Gemini.Info "Starting Gemini Client..."; ended_successfully].
Proof.
  apply (start_chat_stops_at_limit elided_repr empty_world (init "gemini-2.0-flash" 2 1)
           "demo" [("hi", answers "hello")] ("bye", answers "ok")
           [("more", failing EOFError)]).
  - apply no_record_empty_world.
  - repeat constructor; intros m contents; by eexists.
  - reflexivity.
Defined.




(** X12. A remote call that fails ends the chat with its exception and
    records nothing for that turn: in a running session whose limit is not
    reached by the turns before, [start_chat]'s loop stops at the failing
    turn with the state those turns left, the history file holds exactly
    them (it is untouched when there were none), the prompts after the
    failure are never read, and [main] logs a critical error. *)
Theorem remote_failure_ends_chat repr w self title n0 n ts before text e rest :
  session self title n0 n ts →
  answering before →
  Z.of_nat (length ts) + Z.of_nat (length before) < session_limit self n0 →
  e ≠ SystemExit →
  ∃ w1 self1 ts1,
    chat_loop repr w self (before ++ (text, failing e) :: rest) = (w1, self1, e)
    ∧ session self1 title n0 (n + Z.of_nat (length before)) (ts ++ ts1)
    ∧ length ts1 = length before
    ∧ (before = [] → w1 = w ∧ self1 = self)
    ∧ (before ≠ [] →
       files w1 = <[history_file self := Json (Json.dump (history self1))]> (files w))
    ∧ Gemini.main
        (Raise (chat_loop repr w self (before ++ (text, failing e) :: rest)).2)
      = [Gemini.Info "Starting Gemini Client..."; Gemini.Critical].
Proof.
  intros Hs Hans Hlt He.
  destruct (chat_loop_within_limit repr before w self _ _ _ _ Hs Hans Hlt)
    as (w1 & self1 & ts1 & Hloop & Hs1 & Hlen1 & _ & _ & Hnil & Hfiles1).
  exists w1, self1, ts1. rewrite Hloop.
  assert (chat_loop repr w1 self1 ((text, failing e) :: rest) = (w1, self1, e)) as ->
    by done.
  split_and!; try done. by destruct e.
Qed.

Lemma remote_failure_ends_chat_witness :
  ∃ w1 self1 ts1,
    chat_loop elided_repr empty_world demo_client
      ([("hi", answers "hello")] ++ ("bye", failing (ApiError "503")) :: [])
    = (w1, self1, ApiError "503")
    ∧ session self1 "demo" 0 (0 + Z.of_nat (length [("hi", answers "hello")])) ([] ++ ts1)
    ∧ length ts1 = length [("hi", answers "hello")]
    ∧ ([("hi", answers "hello")] = [] → w1 = empty_world ∧ self1 = demo_client)
    ∧ ([("hi", answers "hello")] ≠ [] →
       files w1 = <[history_file demo_client := Json (Json.dump (history self1))]>
                    (files empty_world))
    ∧ Gemini.main
        (Raise (chat_loop elided_repr empty_world demo_client
                  ([("hi", answers "hello")] ++ ("bye", failing (ApiError "503")) :: [])).2)
      = [Gemini.Info "Starting Gemini Client..."; Gemini.Critical].
Proof.
  apply (remote_failure_ends_chat elided_repr empty_world demo_client "demo" 0 0 []
           [("hi", answers "hello")] "bye" (ApiError "503") []).
  - apply opened_fresh_session, no_record_empty_world.
  - repeat constructor; intros m contents; by eexists.
  - vm_compute. reflexivity.
  - discriminate.
Defined.

(** ** The client: history files it cannot use *)

(** X13. A history file that cannot be used ends the run as a critical
    error and is not repaired: text that [json.load] rejects makes
    [start_chat] stop with [JSONDecodeError] before any prompt is read; an
    object in which [history_index] is missing, or is a string or a turn
    dictionary, is loaded as it is, and the first turn calls the remote
    model and then stops with [TypeError]. No file is written in either
    case. *)
Theorem unusable_history_file_stops_chat repr w self title :
  (files w !! history_path title = Some Malformed →
   ∀ script,
     (start_chat repr w self title script).1.1 = w
     ∧ (start_chat repr w self title script).2 = JSONDecodeError)
  ∧ (∀ o text gc rest,
       files w !! history_path title = Some (Json o) →
       (Py.get (KStr "history_index") (Json.load o) = None
        ∨ (∃ s, Py.get (KStr "history_index") (Json.load o) = Some (VStr s))
        ∨ (∃ p r, Py.get (KStr "history_index") (Json.load o) = Some (VTurn p r))) →
       (∀ m contents, ∃ r, gc m contents = Ok r) →
       (∃ self0, open_chat w self title = Ok self0 ∧ history self0 = Json.load o)
       ∧ (start_chat repr w self title ((text, gc) :: rest)).1.1 = w
       ∧ (start_chat repr w self title ((text, gc) :: rest)).2 = TypeError)
  ∧ Gemini.main (Raise JSONDecodeError)
    = [Gemini.Info "Starting Gemini Client..."; Gemini.Critical]
  ∧ Gemini.main (Raise TypeError)
    = [Gemini.Info "Starting Gemini Client..."; Gemini.Critical].
Proof.
  split_and!; try done.
  - intros Hfile script. unfold start_chat, open_chat, load_history.
    cbn [history_file set_session]. by rewrite Hfile.
  - intros o text gc rest Hfile Hno Hgc.
    destruct (open_chat_saved w self title _ Hfile) as [self0 Hopen].
    assert (history self0 = Json.load o) as Hh.
    { revert Hopen. unfold open_chat, load_history.
      cbn [history_file set_session]. rewrite Hfile. cbn [mbind result_bind].
      by intros [= <-]. }
    split; [by exists self0|].
    destruct (start_chat_opened repr w self title ((text, gc) :: rest) _ Hopen)
      as [-> _].
    destruct (Hgc (model self0) [build_prompt repr self0 text]) as [r Hr].
    cbn [chat_loop]. unfold chat_turn. cbv zeta.
    rewrite (respond_returns _ _ _ _ Hr). cbn [mbind result_bind].
    rewrite update_history_type_error; [done|]. by rewrite Hh.
Qed.

Lemma unusable_history_file_stops_chat_witness :
  (∃ self0,
     open_chat {| files := {[history_path "demo" := Json []]}; response_csv := None |}
       (init "gemini-2.0-flash" 100 15) "demo" = Ok self0
     ∧ history self0 = Json.load [])
  ∧ (start_chat elided_repr
       {| files := {[history_path "demo" := Json []]}; response_csv := None |}
       (init "gemini-2.0-flash" 100 15) "demo" [("hi", answers "hello")]).1.1
    = {| files := {[history_path "demo" := Json []]}; response_csv := None |}
  ∧ (start_chat elided_repr
       {| files := {[history_path "demo" := Json []]}; response_csv := None |}
       (init "gemini-2.0-flash" 100 15) "demo" [("hi", answers "hello")]).2
    = TypeError.
Proof.
  apply (proj1 (proj2 (unusable_history_file_stops_chat elided_repr
           {| files := {[history_path "demo" := Json []]}; response_csv := None |}
           (init "gemini-2.0-flash" 100 15) "demo"))
           [] "hi" (answers "hello") []).
  - vm_compute. reflexivity.
  - left. reflexivity.
  - intros m contents. by eexists.
Defined.

(** ** The client: a window that is not positive *)

(** X14. A context window of 0 does not switch the context off: the slice
    is then the whole context, bookkeeping entries and every turn. A
    negative window [-k] drops the first [k] items of the context and keeps
    the rest. *)
Theorem non_positive_window_slice self :
  context_window self ≤ 0 →
  context_slice self = drop (Z.to_nat (- context_window self)) (context self)
  ∧ (context_window self = 0 → context_slice self = context self).
Proof.
  intros HN.
  assert (context_slice self = drop (Z.to_nat (- context_window self)) (context self))
    as Hslice.
  { unfold context_slice, slice_from.
    destruct (Z.ltb_spec (- context_window self) 0) as [?|_]; [lia|].
    destruct (Z.le_gt_cases (- context_window self) (Z.of_nat (length (context self))))
      as [Hle|Hgt].
    - by rewrite Z.min_l.
    - rewrite Z.min_r by lia. rewrite Nat2Z.id.
      rewrite !drop_ge; [done|lia|lia]. }
  split; [done|]. intros H0. rewrite Hslice, H0. done.
Qed.

Lemma non_positive_window_slice_witness :
  context_slice (set_history (init "gemini-2.0-flash" 100 0) []
                   (context demo_after_one_turn))
  = drop (Z.to_nat (- 0)) (context demo_after_one_turn)
  ∧ (0 = 0 →
     context_slice (set_history (init "gemini-2.0-flash" 100 0) []
                      (context demo_after_one_turn))
     = context demo_after_one_turn).
Proof.
  apply (non_positive_window_slice
           (set_history (init "gemini-2.0-flash" 100 0) [] (context demo_after_one_turn))).
  vm_compute. discriminate.
Defined.

(** ** The client: a stored counter that lags behind the turns *)

Lemma get_Some_key d k v : Py.get k d = Some v → k ∈ keys d.
Proof.
  unfold keys. induction d as [|[k1 v1] d IH]; simpl; [done|].
  destruct (decide (k1 = k)) as [->|Hne]; [left|]. intros Hget. right. by apply IH.
Qed.

Lemma set_present d k v :
  k ∈ keys d → keys (Py.set k v d) = keys d ∧ length (Py.set k v d) = length d.
Proof.
  unfold keys. induction d as [|[k1 v1] d IH]; [by intros ?%not_elem_of_nil|].
  rewrite fmap_cons. intros Hin. cbn [Py.set].
  destruct (decide (k1 = k)) as [->|Hne]; [done|].
  apply elem_of_cons in Hin as [->|Hin]; [done|].
  destruct (IH Hin) as [IH1 IH2]. rewrite !fmap_cons. cbn [fst length].
  by rewrite IH1, IH2.
Qed.

Lemma string_keys_dump d :
  (∀ k, k ∈ keys d → ∃ s, k = KStr s) →
  KStr <$> (Json.key_string <$> keys d) = keys d.
Proof.
  unfold keys. induction d as [|[k v] d IH]; intros Hstr; [done|].
  destruct (Hstr k) as [s ->]; [left|]. cbn. f_equal.
  apply IH. intros k' Hin. apply Hstr. by right.
Qed.

Lemma load_dump_strings d :
  (∀ k, k ∈ keys d → ∃ s, k = KStr s) → NoDup (keys d) →
  Json.load (Json.dump d) = d.
Proof.
  intros Hstr Hnd. rewrite load_dump; [by apply stringified_strings|].
  apply (NoDup_fmap_1 KStr). by rewrite string_keys_dump.
Qed.

Lemma load_dump_snoc d k v :
  Json.load (Json.dump (d ++ [(k, v)]))
  = Py.set (KStr (Json.key_string k)) v (Json.load (Json.dump d)).
Proof.
  unfold Json.load, Json.dump. rewrite map_app. simpl. by rewrite foldl_app.
Qed.

(** X15. When a loaded history already holds a turn under the number the
    counter gives next (its counter lags behind its turns), the new turn
    does not replace it in memory: the old turn stays under the string key
    and the new one is appended under the integer key. In the file both are
    written under the same string, and loading the file again gives the new
    turn under that key and no trace of the old one. *)
Theorem lagging_counter_overwrites_on_reload w self prompt response n old :
  (∀ k, k ∈ keys (history self) → ∃ s, k = KStr s) →
  NoDup (keys (history self)) →
  Py.get (KStr "history_index") (history self) = Some (VInt n) →
  Py.get (KStr (pretty (n + 1))) (history self) = Some old →
  ∃ w' self' status self'',
    update_history w self prompt response = Ok (w', self', status)
    ∧ history self'
      = Py.set (KStr "history_index") (VInt (n + 1)) (history self)
          ++ [(KInt (n + 1), VTurn prompt response)]
    ∧ Py.get (KStr (pretty (n + 1))) (history self') = Some old
    ∧ Py.get (KInt (n + 1)) (history self') = Some (VTurn prompt response)
    ∧ load_history w' self' = Ok self''
    ∧ Py.get (KStr (pretty (n + 1))) (history self'') = Some (VTurn prompt response)
    ∧ Py.len (history self'') = Py.len (history self).
Proof.
  intros Hstr Hnd Hidx Hold.
  set (h1 := Py.set (KStr "history_index") (VInt (n + 1)) (history self)).
  destruct (set_present (history self) (KStr "history_index") (VInt (n + 1)))
    as [Hkeys1 Hlen1]; [by eapply get_Some_key|]. fold h1 in Hkeys1, Hlen1.
  assert (Py.set (KInt (n + 1)) (VTurn prompt response) h1
          = h1 ++ [(KInt (n + 1), VTurn prompt response)]) as Hh2.
  { apply set_fresh. rewrite Hkeys1. intros Hin.
    by destruct (Hstr _ Hin) as [s ?]. }
  assert (Py.get (KStr (pretty (n + 1))) h1 = Some old) as Hold1.
  { unfold h1. rewrite get_set_ne; [done|].
    intros [= Heq]. by apply (pretty_Z_ne_history_index (n + 1)). }
  pose proof (update_history_index w self prompt response n Hidx) as Hupd.
  cbv zeta in Hupd. fold h1 in Hupd. rewrite Hh2 in Hupd.
  set (self' := set_history _ _ _) in Hupd.
  do 4 eexists. split; [exact Hupd|]. split; [done|].
  assert (Json.load (Json.dump (history self'))
          = Py.set (KStr (pretty (n + 1))) (VTurn prompt response) h1) as Hload.
  { simpl. rewrite load_dump_snoc. simpl. rewrite load_dump_strings; [done| |].
    - by rewrite Hkeys1.
    - by rewrite Hkeys1. }
  split_and!.
  - simpl. clear -Hold1. induction h1 as [|[k v] h1 IH]; [done|].
    simpl in *. destruct (decide (k = KStr (pretty (n + 1)))); [done|]. by apply IH.
  - simpl. rewrite <-Hh2. apply get_set_eq.
  - apply load_after_save.
  - cbn [history set_history]. rewrite Hload. apply get_set_eq.
  - cbn [history set_history]. rewrite Hload. unfold Py.len.
    destruct (set_present h1 (KStr (pretty (n + 1))) (VTurn prompt response))
      as [_ ->]; [by eapply get_Some_key|]. by rewrite Hlen1.
Qed.

Lemma lagging_counter_overwrites_on_reload_witness :
  ∃ w' self' status self'',
    update_history empty_world
      (set_history demo_client
         (bookkeeping "demo" 0 ++ [(KStr "1", VTurn "hi" "hello")]) []) "bye" "ok"
    = Ok (w', self', status)
    ∧ history self'
      = Py.set (KStr "history_index") (VInt (0 + 1))
          (history (set_history demo_client
                      (bookkeeping "demo" 0 ++ [(KStr "1", VTurn "hi" "hello")]) []))
          ++ [(KInt (0 + 1), VTurn "bye" "ok")]
    ∧ Py.get (KStr (pretty (0 + 1))) (history self') = Some (VTurn "hi" "hello")
    ∧ Py.get (KInt (0 + 1)) (history self') = Some (VTurn "bye" "ok")
    ∧ load_history w' self' = Ok self''
    ∧ Py.get (KStr (pretty (0 + 1))) (history self'') = Some (VTurn "bye" "ok")
    ∧ Py.len (history self'')
      = Py.len (history (set_history demo_client
                           (bookkeeping "demo" 0 ++ [(KStr "1", VTurn "hi" "hello")]) [])).
Proof.
  apply (lagging_counter_overwrites_on_reload empty_world
           (set_history demo_client
              (bookkeeping "demo" 0 ++ [(KStr "1", VTurn "hi" "hello")]) [])
           "bye" "ok" 0 (VTurn "hi" "hello")).
  - intros k Hin. simpl in Hin.
    repeat (apply elem_of_cons in Hin as [->|Hin]; [by eexists|]).
    by apply not_elem_of_nil in Hin.
  - simpl. repeat (apply NoDup_cons; split; [|]); try apply NoDup_nil_2;
      intros Hin;
      repeat (apply elem_of_cons in Hin as [Heq|Hin]; [discriminate Heq|]);
      by apply not_elem_of_nil in Hin.
  - reflexivity.
  - reflexivity.
Defined.
